(** * Legal document analyser: section extraction, text formatting and the
      analyse endpoint

    The client script slices the text returned by the analysis service into
    four sections ([extractSection]), turns each section into markup
    ([formatText]) and fills the result template ([displayResults]).  The
    server ([server.js]) receives the upload, asks the generative model for
    the analysis and answers with a JSON body.

    JavaScript strings are modelled as lists of UTF-16 code units, [null] and
    [undefined] as constructors of a small value type, exceptions as an
    explicit completion type. *)

From Stdlib Require Import String Ascii.
From Stdlib Require Import List NArith Arith Bool Lia.
Import ListNotations.

Local Open Scope list_scope.

(** ** JavaScript strings and values *)

Module JS.

Definition code_unit := N.
Definition jstring := list code_unit.

(** A literal of the program text (the literals of both files are ASCII). *)
Definition lit (s : string) : jstring :=
  map N_of_ascii (list_ascii_of_string s).

Definition LF : code_unit := 10%N.
Definition CR : code_unit := 13%N.
Definition LS : code_unit := 8232%N.
Definition PS : code_unit := 8233%N.

(** ECMAScript [LineTerminator]: what [.] refuses without the [s] flag and
    what [^] and [$] look at under the [m] flag. *)
Definition is_line_terminator (c : code_unit) : bool :=
  (c =? LF)%N || (c =? CR)%N || (c =? LS)%N || (c =? PS)%N.

(** ECMAScript [WhiteSpace] and [LineTerminator]: what [trim] removes. *)
Definition is_white_space (c : code_unit) : bool :=
  (c =? 9)%N || (c =? 11)%N || (c =? 12)%N || (c =? 32)%N || (c =? 160)%N
  || (c =? 5760)%N || ((8192 <=? c)%N && (c <=? 8202)%N)
  || (c =? 8239)%N || (c =? 8287)%N || (c =? 12288)%N || (c =? 65279)%N
  || is_line_terminator c.

Fixpoint jeqb (a b : jstring) : bool :=
  match a, b with
  | [], [] => true
  | x :: a', y :: b' => (x =? y)%N && jeqb a' b'
  | _, _ => false
  end.

(** [starts_with p s]: the code units of [p] are the first ones of [s]. *)
Fixpoint starts_with (p s : jstring) : bool :=
  match p, s with
  | [], _ => true
  | x :: p', y :: s' => (x =? y)%N && starts_with p' s'
  | _ :: _, [] => false
  end.

(** The scan of [String.prototype.indexOf]: [k] is the index of the head of
    [s] in the whole string. *)
Fixpoint search (needle s : jstring) (k : nat) : option nat :=
  if starts_with needle s then Some k
  else match s with
       | [] => None
       | _ :: s' => search needle s' (S k)
       end.

(** [text.indexOf(needle, position)]; [None] stands for [-1]. *)
Definition indexOf (text needle : jstring) (position : nat) : option nat :=
  let start := Nat.min position (length text) in
  search needle (skipn start text) start.

(** [text.substring(start, end)]: both indices are clamped to the length
    and swapped when [start] is the larger one. *)
Definition substring (text : jstring) (start stop : nat) : jstring :=
  let s := Nat.min start (length text) in
  let e := Nat.min stop (length text) in
  let from := Nat.min s e in
  let to := Nat.max s e in
  firstn (to - from) (skipn from text).

Fixpoint trimStart (s : jstring) : jstring :=
  match s with
  | [] => []
  | c :: s' => if is_white_space c then trimStart s' else s
  end.

Definition trimEnd (s : jstring) : jstring := rev (trimStart (rev s)).

(** [s.trim()] *)
Definition trim (s : jstring) : jstring := trimEnd (trimStart s).

(** The values the client functions are called with. *)
Inductive JsVal : Type :=
| JUndefined
| JNull
| JStr (s : jstring).

(** [ToBoolean] *)
Definition truthy (v : JsVal) : bool :=
  match v with
  | JUndefined | JNull => false
  | JStr [] => false
  | JStr (_ :: _) => true
  end.

Inductive Exn : Type :=
| TypeError (message : jstring)
| Error (message : jstring)
| MulterError (code message : jstring).

(** [error.message] *)
Definition message_of (e : Exn) : jstring :=
  match e with
  | TypeError m | Error m | MulterError _ m => m
  end.

(** How the evaluation of a function body ends. *)
Inductive Completion (A : Type) : Type :=
| Normal (a : A)
| Throw (e : Exn).
Arguments Normal {A} a.
Arguments Throw {A} e.

Definition bind {A B} (c : Completion A) (k : A -> Completion B) : Completion B :=
  match c with
  | Normal a => k a
  | Throw e => Throw e
  end.

(** A JSON object with string and boolean members: the body of a response,
    on the server before it is sent and in the client once it is parsed. *)
Inductive Json : Type :=
| JsonString (s : jstring)
| JsonBool (b : bool).

Definition JsonObject : Type := list (string * Json).

Fixpoint member (key : string) (o : JsonObject) : option Json :=
  match o with
  | [] => None
  | (k, v) :: o' => if String.eqb k key then Some v else member key o'
  end.

End JS.

Import JS.

Notation "x <- c ;; k" := (bind c (fun x => k))
  (at level 61, c at next level, right associativity).

(** ** The client script *)

Module Client.

Definition sentinel : jstring := lit "No information found.".

(** Calling a string method on [null] or [undefined] throws a [TypeError]
    (the message is the one of V8). *)
Definition as_receiver (v : JsVal) (method : jstring) : Completion jstring :=
  match v with
  | JStr s => Normal s
  | JNull =>
    Throw (TypeError (lit "Cannot read properties of null (reading '"
                      ++ method ++ lit "')"))
  | JUndefined =>
    Throw (TypeError (lit "Cannot read properties of undefined (reading '"
                      ++ method ++ lit "')"))
  end.

(** [extractSection(text, startMarker, endMarker)], lines 144-159.  The start
    marker is always a string literal at the call sites; the end marker is a
    literal or [null] ([None]). *)
Definition extractSection (text : JsVal) (startMarker : jstring)
    (endMarker : option jstring) : Completion jstring :=
  t <- as_receiver text (lit "indexOf") ;;
  match indexOf t startMarker 0 with
  | None => Normal sentinel
  | Some startIndex =>
    let contentStart := startIndex + length startMarker in
    let contentEnd :=
      match endMarker with
      | Some (c :: m) =>                       (* [if (endMarker)] *)
        match indexOf t (c :: m) contentStart with
        | Some endIndex => endIndex
        | None => length t
        end
      | _ => length t
      end in
    Normal (trim (substring t contentStart contentEnd))
  end.

(** *** [String.prototype.replace] with a global regular expression

    A matcher tells whether the pattern matches at the current position.  It
    sees the code unit before the position (for the assertion [^]) and the
    input from the position on, and answers with the replacement text and
    the number of code units the match covers. *)
Definition Matcher : Type :=
  option code_unit -> jstring -> option (jstring * nat).

(** The replace loop walks over the input once.  [skip] is the distance to
    the end of the last match ([lastIndex]): positions inside a match are
    dropped, at every other position the matcher is tried, and a code unit
    that starts no match is copied.  An empty match puts its replacement in
    front of the code unit and moves on by one. *)
Fixpoint replace_loop (m : Matcher) (skip : nat) (prev : option code_unit)
    (s : jstring) : jstring :=
  match s with
  | [] =>
    match skip with
    | 0 => match m prev [] with Some (r, _) => r | None => [] end
    | S _ => []
    end
  | c :: s' =>
    match skip with
    | S k => replace_loop m k (Some c) s'
    | 0 =>
      match m prev s with
      | Some (r, S k) => r ++ replace_loop m k (Some c) s'
      | Some (r, 0) => r ++ c :: replace_loop m 0 (Some c) s'
      | None => c :: replace_loop m 0 (Some c) s'
      end
    end
  end.

Definition replace (m : Matcher) (s : jstring) : jstring :=
  replace_loop m 0 None s.

(** [^] under the [m] flag: the start of the input or just after a line
    terminator. *)
Definition at_line_start (prev : option code_unit) : bool :=
  match prev with
  | None => true
  | Some c => is_line_terminator c
  end.

(** The longest run of code units [.] accepts (no [s] flag). *)
Fixpoint dot_star (s : jstring) : jstring :=
  match s with
  | [] => []
  | c :: s' => if is_line_terminator c then [] else c :: dot_star s'
  end.

Definition SP : code_unit := 32%N.
Definition DASH : code_unit := 45%N.
Definition STAR : code_unit := 42%N.

(** The first two patterns of [formatText] (lines 98 and 99, flags [g] and
    [m]): [^], the bullet character [b], a space, the group [.*] written in
    parentheses, [$]; the replacement is ["<li>$1</li>"].  The group is greedy
    and stops in front of a line terminator or at the end of the input, where
    [$] holds, so the first attempt of the backtracking succeeds. *)
Definition bullet_line (b : code_unit) : Matcher :=
  fun prev s =>
    if at_line_start prev && starts_with [b; SP] s then
      let group1 := dot_star (skipn 2 s) in
      Some (lit "<li>" ++ group1 ++ lit "</li>", 2 + length group1)
    else None.

(** The index of the last occurrence of [needle] in [s]. *)
Fixpoint lastIndexOf (needle s : jstring) : option nat :=
  match s with
  | [] => if starts_with needle [] then Some 0 else None
  | _ :: s' =>
    match lastIndexOf needle s' with
    | Some k => Some (S k)
    | None => if starts_with needle s then Some 0 else None
    end
  end.

(** The third pattern (line 100, flags [g] and [s]): one group holding
    ["<li>"], [.*] and ["</li>"]; the replacement is ["<ul>$1</ul>"].  Under
    the [s] flag [.] accepts every code unit, and the star is greedy: the match
    that starts at an opening tag runs to the last closing tag of the
    input. *)
Definition list_span : Matcher :=
  fun _ s =>
    if starts_with (lit "<li>") s then
      match lastIndexOf (lit "</li>") (skipn 4 s) with
      | Some k =>
        let n := 4 + k + 5 in
        Some (lit "<ul>" ++ firstn n s ++ lit "</ul>", n)
      | None => None
      end
    else None.

(** The fourth pattern (line 101, flag [g]): a line feed; the replacement is
    ["<br>"]. *)
Definition newline : Matcher :=
  fun _ s =>
    match s with
    | c :: _ => if (c =? LF)%N then Some (lit "<br>", 1) else None
    | [] => None
    end.

(** [formatText(text)], lines 94-102. *)
Definition formatText (text : JsVal) : Completion jstring :=
  if negb (truthy text) then Normal sentinel
  else
    t <- as_receiver text (lit "replace") ;;
    Normal (replace newline
             (replace list_span
               (replace (bullet_line STAR)
                 (replace (bullet_line DASH) t)))).

(** *** The result template *)

Definition KEY_IMPORTANT_POINTS : jstring := lit "KEY IMPORTANT POINTS".
Definition SUSPICIOUS_ELEMENTS : jstring := lit "SUSPICIOUS ELEMENTS".
Definition RISK_ASSESSMENT : jstring := lit "RISK ASSESSMENT".
Definition RECOMMENDATIONS : jstring := lit "RECOMMENDATIONS".

(** Reading a property that holds a string; a missing property reads as
    [undefined]. *)
Definition string_member (key : string) (o : JsonObject) : JsVal :=
  match member key o with
  | Some (JsonString s) => JStr s
  | _ => JUndefined
  end.

(** What [displayResults] interpolates into the template, in the order of
    the template; the markup between the holes is fixed text. *)
Record Rendered : Type := mkRendered {
  key_points : jstring;
  suspicious : jstring;
  risk : jstring;
  recommendations : jstring;
  completed : jstring;
  document : JsVal
}.

(** [displayResults(analysisResult)], lines 106-141; [now] is
    [new Date().toLocaleString()]. *)
Definition displayResults (now : jstring) (analysisResult : JsonObject)
    : Completion Rendered :=
  let analysis := string_member "analysis" analysisResult in
  s1 <- extractSection analysis KEY_IMPORTANT_POINTS (Some SUSPICIOUS_ELEMENTS) ;;
  h1 <- formatText (JStr s1) ;;
  s2 <- extractSection analysis SUSPICIOUS_ELEMENTS (Some RISK_ASSESSMENT) ;;
  h2 <- formatText (JStr s2) ;;
  s3 <- extractSection analysis RISK_ASSESSMENT (Some RECOMMENDATIONS) ;;
  h3 <- formatText (JStr s3) ;;
  s4 <- extractSection analysis RECOMMENDATIONS None ;;
  h4 <- formatText (JStr s4) ;;
  Normal (mkRendered h1 h2 h3 h4 now (string_member "fileName" analysisResult)).

End Client.

(** ** The server *)

Module Server.

(** The file part of the multipart request as the upload middleware sees it
    before anything is stored. *)
Record Part : Type := mkPart {
  part_fieldname : jstring;
  part_originalname : jstring;
  part_mimetype : jstring;
  part_size : N
}.

(** [req.file] *)
Record File : Type := mkFile {
  fieldname : jstring;
  originalname : jstring;
  mimetype : jstring;
  size : N;
  path : jstring
}.

(** What the program takes from its platform and its surroundings. *)
Record World : Type := mkWorld {
  GEMINI_API_KEY : JsVal;                       (* [process.env.GEMINI_API_KEY] *)
  extname : jstring -> jstring;                 (* [path.extname] *)
  toLowerCase : jstring -> jstring;             (* [String.prototype.toLowerCase] *)
  store : Part -> Completion jstring;
    (* the disk storage engine of lines 24-36: the path of the stored file, or
       the error given to its callback *)
  readFileSync : jstring -> Completion (list N);
  base64 : list N -> jstring;                   (* [buffer.toString('base64')] *)
  generateContent : jstring -> jstring -> jstring -> Completion jstring;
    (* the generative model, from the prompt, the MIME type and the data of
       the inline part to [response.text()], or the error of the call *)
  toISOString : jstring                         (* [new Date().toISOString()] *)
}.

Inductive Event : Type :=
| Generate (mimeType data : jstring)
| Unlink (file_path : jstring)
| Console (label : jstring)
| Send (status : N) (body : JsonObject).

(** A computation ends normally or with an exception and leaves the events it
    caused, oldest first. *)
Definition Eff (A : Type) : Type := (Completion A * list Event)%type.

Definition ret {A} (a : A) : Eff A := (Normal a, []).
Definition throw {A} (e : Exn) : Eff A := (Throw e, []).
Definition emit (ev : Event) : Eff unit := (Normal tt, [ev]).
Definition lift {A} (c : Completion A) : Eff A := (c, []).

Definition ebind {A B} (c : Eff A) (k : A -> Eff B) : Eff B :=
  match c with
  | (Normal a, t) => let '(r, t') := k a in (r, t ++ t')
  | (Throw e, t) => (Throw e, t)
  end.

(** [try { c } catch (error) { h error }] *)
Definition try_catch {A} (c : Eff A) (h : Exn -> Eff A) : Eff A :=
  match c with
  | (Normal a, t) => (Normal a, t)
  | (Throw e, t) => let '(r, t') := h e in (r, t ++ t')
  end.

Notation "x <~ c ;; k" := (ebind c (fun x => k))
  (at level 61, c at next level, right associativity).
Notation "c ;;; k" := (ebind c (fun _ => k))
  (at level 61, right associativity).

(** [re.test(s)] for a pattern that is an alternation of literals. *)
Definition contains (needle s : jstring) : bool :=
  match search needle s 0 with
  | Some _ => true
  | None => false
  end.

(** The pattern of line 44: [jpeg], [jpg], [png] or [pdf] anywhere in the
    string. *)
Definition allowedTypes (s : jstring) : bool :=
  existsb (fun a => contains a s) [lit "jpeg"; lit "jpg"; lit "png"; lit "pdf"].

(** [limits.fileSize], line 41 *)
Definition fileSize : N := 10 * 1024 * 1024.

(** [fileFilter], lines 43-53: [Normal true] is [cb(null, true)], a thrown
    value is the error given to [cb]. *)
Definition fileFilter (w : World) (file : Part) : Completion bool :=
  let extname_ok :=
    allowedTypes (toLowerCase w (extname w (part_originalname file))) in
  let mimetype_ok := allowedTypes (part_mimetype file) in
  if mimetype_ok && extname_ok then Normal true
  else Throw (Error (lit "Only PDF and image files are allowed!")).

Definition LIMIT_FILE_SIZE : jstring := lit "LIMIT_FILE_SIZE".

(** [upload.single(field)], lines 38-54 and 174: what the middleware hands to
    the next stage, [req.file] or an error.  The middleware rejects a file
    under another field name, asks [fileFilter] before it stores anything,
    stores the file through the storage engine, and aborts with the code
    [LIMIT_FILE_SIZE] when the file has more bytes than [limits.fileSize]. *)
Definition upload_single (w : World) (field : jstring) (rq : option Part)
    : Completion (option File) :=
  match rq with
  | None => Normal None
  | Some p =>
    if negb (jeqb (part_fieldname p) field) then
      Throw (MulterError (lit "LIMIT_UNEXPECTED_FILE") (lit "Unexpected field"))
    else
      accepted <- fileFilter w p ;;
      if accepted then
        stored <- store w p ;;
        if (fileSize <? part_size p)%N then
          Throw (MulterError LIMIT_FILE_SIZE (lit "File too large"))
        else
          Normal (Some (mkFile (part_fieldname p) (part_originalname p)
                               (part_mimetype p) (part_size p) stored))
      else Normal None
  end.

Fixpoint join_lines (ls : list string) : jstring :=
  match ls with
  | [] => []
  | [l] => lit l
  | l :: ls' => lit l ++ LF :: join_lines ls'
  end.

(** The template literal of lines 63-95. *)
Definition prompt : jstring :=
  LF :: join_lines [
    "        Analyze this legal document and provide a detailed assessment in the following format:";
    EmptyString;
    "        KEY IMPORTANT POINTS:";
    "        - Identify and highlight critical clauses, terms, deadlines, and obligations";
    "        - Payment terms, amounts, and due dates";
    "        - Liability and indemnification clauses";
    "        - Termination conditions and notice requirements";
    "        - Intellectual property rights and restrictions";
    "        - Governing law and jurisdiction";
    EmptyString;
    "        SUSPICIOUS ELEMENTS:";
    "        - Unusual or non-standard terms that may be problematic";
    "        - Missing standard clauses that should be present";
    "        - Ambiguous language that could lead to disputes";
    "        - Terms heavily favoring one party";
    "        - Potential red flags or concerning provisions";
    EmptyString;
    "        RISK ASSESSMENT:";
    "        - Overall risk level (Low/Medium/High) with explanation";
    "        - Financial risks and exposure";
    "        - Legal compliance risks";
    "        - Operational risks";
    "        - Relationship risks";
    EmptyString;
    "        RECOMMENDATIONS:";
    "        - Specific items that require careful review or negotiation";
    "        - Suggested modifications or additions";
    "        - Areas where legal counsel should be consulted";
    "        - Due diligence items to verify";
    EmptyString;
    "        Please be thorough and practical in your analysis.";
    "        "
  ]%string.

(** [getImageMimeType(extension)], lines 153-160 *)
Definition getImageMimeType (extension : jstring) : jstring :=
  if jeqb extension (lit ".jpg") then lit "image/jpeg"
  else if jeqb extension (lit ".jpeg") then lit "image/jpeg"
  else if jeqb extension (lit ".png") then lit "image/png"
  else lit "image/jpeg".

(** [model.generateContent] followed by [response.text()] *)
Definition generate (w : World) (mimeType data : jstring) : Eff jstring :=
  emit (Generate mimeType data) ;;;
  lift (generateContent w prompt mimeType data).

(** [analyzeLegalDocument(filePath, originalName)], lines 56-145 *)
Definition analyzeLegalDocument (w : World) (filePath originalName : jstring)
    : Eff JsonObject :=
  try_catch
    (let fileExtension := toLowerCase w (extname w originalName) in
     fileBuffer <~ lift (readFileSync w filePath) ;;
     analysis <~
       (if jeqb fileExtension (lit ".pdf") then
          generate w (lit "application/pdf") (base64 w fileBuffer)
        else if existsb (jeqb fileExtension)
                  [lit ".jpg"; lit ".jpeg"; lit ".png"] then
          generate w (getImageMimeType fileExtension) (base64 w fileBuffer)
        else throw (Error (lit "Unsupported file type"))) ;;
     ret [ ("analysis", JsonString analysis);
           ("fileName", JsonString originalName);
           ("fileType", JsonString fileExtension);
           ("timestamp", JsonString (toISOString w));
           ("success", JsonBool true) ]%string)
    (fun error =>
       emit (Console (lit "Error in analyzeLegalDocument:")) ;;;
       throw (Error (lit "Analysis failed: " ++ message_of error))).

(** [message || fallback] *)
Definition or_else (message fallback : jstring) : jstring :=
  match message with
  | [] => fallback
  | _ :: _ => message
  end.

Definition failure (message : jstring) : JsonObject :=
  [ ("success", JsonBool false); ("error", JsonString message) ]%string.

(** [res.json(body)] with the status 200 of a response whose status was not
    set, and [res.status(code).json(body)]. *)
Definition res_json (body : JsonObject) : Eff unit := emit (Send 200 body).
Definition res_status_json (code : N) (body : JsonObject) : Eff unit :=
  emit (Send code body).

(** The handler of [POST /api/analyze], lines 174-216, from [req.file]. *)
Definition analyze_handler (w : World) (file : option File) : Eff unit :=
  try_catch
    (match file with
     | None => res_status_json 400 (failure (lit "No file uploaded"))
     | Some f =>
       if negb (truthy (GEMINI_API_KEY w)) then
         res_status_json 500 (failure (lit "Gemini API key not configured"))
       else
         emit (Console (lit "Analyzing file: " ++ originalname f)) ;;;
         analysis <~ analyzeLegalDocument w (path f) (originalname f) ;;
         emit (Unlink (path f)) ;;;
         res_json analysis
     end)
    (fun error =>
       emit (Console (lit "Analysis error:")) ;;;
       (match file with
        | Some f => emit (Unlink (path f))
        | None => ret tt
        end) ;;;
       res_status_json 500
         (failure (or_else (message_of error) (lit "Internal server error")))).

(** The error handling middleware, lines 219-233. *)
Definition error_middleware (error : Exn) : Eff unit :=
  let otherwise :=
    res_status_json 500
      (failure (or_else (message_of error) (lit "Internal server error"))) in
  match error with
  | MulterError code _ =>
    if jeqb code LIMIT_FILE_SIZE then
      res_status_json 400 (failure (lit "File too large. Maximum size is 10MB."))
    else otherwise
  | _ => otherwise
  end.

(** A [POST /api/analyze] request through the application: the upload
    middleware, then the handler, or the error middleware when the upload
    middleware ends with an error. *)
Definition post_analyze (w : World) (rq : option Part) : Eff unit :=
  match upload_single w (lit "document") rq with
  | Normal file => analyze_handler w file
  | Throw error => error_middleware error
  end.

(** The [destination] callback of the storage engine, lines 25-31.
    [uploadDir] is what a call of [multer] returns, an object and no path:
    for such a value [fs.existsSync] answers [false] and [fs.mkdirSync]
    throws a [TypeError].  What the upload middleware makes of an exception
    of this callback is no part of its contract; [store] stands for the
    outcome of the storage engine. *)
Inductive PathArg : Type :=
| PathString (p : jstring)
| MulterInstance.

Definition existsSync (on_disk : jstring -> bool) (p : PathArg) : bool :=
  match p with
  | PathString s => on_disk s
  | MulterInstance => false
  end.

Definition DQUOTE : code_unit := 34%N.

Definition mkdirSync (p : PathArg) : Completion unit :=
  match p with
  | PathString _ => Normal tt
  | MulterInstance =>
    Throw (TypeError (lit "The " ++ DQUOTE :: lit "path" ++ DQUOTE ::
                      lit " argument must be of type string or an instance of Buffer or URL. Received an instance of Multer"))
  end.

Definition destination (on_disk : jstring -> bool) : Completion PathArg :=
  let uploadDir := MulterInstance in
  _ <- (if negb (existsSync on_disk uploadDir) then mkdirSync uploadDir
        else Normal tt) ;;
  Normal uploadDir.

(** The [filename] callback of the storage engine, lines 32-35; [now] is
    [Date.now()] and [random] the rounded random number, both as decimal
    strings. *)
Definition filename (w : World) (file : Part) (now random : jstring) : jstring :=
  let uniqueSuffix := now ++ lit "-" ++ random in
  part_fieldname file ++ lit "-" ++ uniqueSuffix
  ++ extname w (part_originalname file).

(** The responses sent and the calls of the generative model in a trace. *)
Definition responses (t : list Event) : list (N * JsonObject) :=
  flat_map (fun ev => match ev with Send c b => [(c, b)] | _ => [] end) t.

Definition model_calls (t : list Event) : list (jstring * jstring) :=
  flat_map (fun ev => match ev with Generate m d => [(m, d)] | _ => [] end) t.

(** The handler of [GET /api/health], lines 166-172. *)
Definition health_handler (w : World) : Eff unit :=
  res_json [ ("status", JsonString (lit "healthy"));
             ("timestamp", JsonString (toISOString w));
             ("geminiConfigured", JsonBool (truthy (GEMINI_API_KEY w))) ]%string.

(** The handler of the last middleware, lines 236-241. *)
Definition not_found_handler : Eff unit :=
  res_status_json 404 (failure (lit "Route not found")).

(** The files a trace removes. *)
Definition unlinks (t : list Event) : list jstring :=
  flat_map (fun ev => match ev with Unlink p => [p] | _ => [] end) t.

(** *** A sample world, for the examples *)

(** The part of a file name from its last dot on. *)
Fixpoint from_last_dot (s : jstring) : jstring :=
  match s with
  | [] => []
  | c :: s' =>
    match from_last_dot s' with
    | [] => if (c =? 46)%N then s else []
    | r => r
    end
  end.

Definition ascii_lower (c : code_unit) : code_unit :=
  if (65 <=? c)%N && (c <=? 90)%N then (c + 32)%N else c.

(** The response of the model in the example of the specification. *)
Definition sample_analysis : jstring :=
  join_lines [ "KEY IMPORTANT POINTS:";
               "- Payment due in 30 days";
               "SUSPICIOUS ELEMENTS:";
               "- None found";
               "RISK ASSESSMENT:";
               "Low";
               "RECOMMENDATIONS:";
               "- Review clause 4" ]%string.

Definition sample_world (key : JsVal) : World :=
  {| GEMINI_API_KEY := key;
     extname := from_last_dot;
     toLowerCase := map ascii_lower;
     store := fun p => Normal (lit "uploads/" ++ part_fieldname p
                               ++ lit "-1767225600000-42"
                               ++ from_last_dot (part_originalname p));
     readFileSync := fun _ => Normal [37; 80; 68; 70]%N;
     base64 := fun _ => lit "JVBERg==";
     generateContent := fun _ _ _ => Normal sample_analysis;
     toISOString := lit "2026-01-01T00:00:00.000Z" |}.

Definition MiB : N := 1024 * 1024.

Definition contract_pdf : File :=
  mkFile (lit "document") (lit "contract.pdf") (lit "application/pdf")
         (2 * MiB) (lit "uploads/document-1767225600000-42.pdf").

Definition big_pdf : Part :=
  mkPart (lit "document") (lit "big.pdf") (lit "application/pdf") (20 * MiB).

Definition big_txt : Part :=
  mkPart (lit "document") (lit "notes.txt") (lit "text/plain") (20 * MiB).

Definition small_pdf : Part :=
  mkPart (lit "document") (lit "contract.pdf") (lit "application/pdf") (2 * MiB).

(** A file that the filter takes for a PDF and the analysis does not. *)
Definition odd_pdf : Part :=
  mkPart (lit "document") (lit "scan.pdfx") (lit "application/pdf") MiB.

Definition odd_pdf_file : File :=
  mkFile (lit "document") (lit "scan.pdfx") (lit "application/pdf") MiB
         (lit "uploads/document-1767225600000-42.pdfx").

End Server.

(** ** The page *)

Module Page.

Import Client.

(** [style.display] of an element, as the script sets it. *)
Inductive Display : Type :=
| DisplayBlock
| DisplayNone.

(** A [File] of the browser. *)
Record BrowserFile : Type := mkBrowserFile {
  file_name : jstring;
  file_size : N;
  file_type : jstring
}.

(** What [results.innerHTML] holds: the markup of the document as loaded,
    the result template with its holes filled, or the error box with its
    message. *)
Inductive Content : Type :=
| InitialMarkup
| Report (r : Rendered)
| ErrorBox (message : jstring).

(** The elements and the variable the script works on, and the number of
    requests that are under way. *)
Record State : Type := mkState {
  selectedFile : option BrowserFile;
  drag_over : bool;
  fileName_text : jstring;
  fileSize_text : jstring;
  fileType_text : jstring;
  fileInfo_display : Display;
  analyzeBtn_disabled : bool;
  placeholder_display : Display;
  loading_display : Display;
  results_display : Display;
  results_innerHTML : Content;
  pending : nat
}.

(** [formatFileSize(bytes)], lines 51-57.  The arithmetic of lines 53-56 is
    floating point ([Math.log], [toFixed], [parseFloat]); [scaled] stands for
    it. *)
Definition formatFileSize (scaled : N -> jstring) (bytes : N) : jstring :=
  if (bytes =? 0)%N then lit "0 Bytes" else scaled bytes.

(** [handleFileSelect(file)], lines 38-48. *)
Definition handleFileSelect (scaled : N -> jstring) (file : BrowserFile)
    (p : State) : State :=
  {| selectedFile := Some file;
     drag_over := drag_over p;
     fileName_text := file_name file;
     fileSize_text := formatFileSize scaled (file_size file);
     fileType_text := Server.or_else (file_type file) (lit "Unknown");
     fileInfo_display := DisplayBlock;
     analyzeBtn_disabled := false;
     placeholder_display := placeholder_display p;
     loading_display := loading_display p;
     results_display := results_display p;
     results_innerHTML := results_innerHTML p;
     pending := pending p |}.

Definition set_drag_over (b : bool) (p : State) : State :=
  {| selectedFile := selectedFile p;
     drag_over := b;
     fileName_text := fileName_text p;
     fileSize_text := fileSize_text p;
     fileType_text := fileType_text p;
     fileInfo_display := fileInfo_display p;
     analyzeBtn_disabled := analyzeBtn_disabled p;
     placeholder_display := placeholder_display p;
     loading_display := loading_display p;
     results_display := results_display p;
     results_innerHTML := results_innerHTML p;
     pending := pending p |}.

(** The handlers of [dragover], [dragleave], [drop] and [change], lines
    12-35. *)
Definition on_dragover (p : State) : State := set_drag_over true p.
Definition on_dragleave (p : State) : State := set_drag_over false p.

Definition on_drop (scaled : N -> jstring) (files : list BrowserFile)
    (p : State) : State :=
  let p1 := set_drag_over false p in
  match files with
  | file :: _ => handleFileSelect scaled file p1
  | [] => p1
  end.

Definition on_change (scaled : N -> jstring) (files : list BrowserFile)
    (p : State) : State :=
  match files with
  | file :: _ => handleFileSelect scaled file p
  | [] => p
  end.

(** The four style and state changes the click handler makes, as one
    update. *)
Definition set_progress (placeholder loading results : Display)
    (disabled : bool) (content : Content) (n : nat) (p : State) : State :=
  {| selectedFile := selectedFile p;
     drag_over := drag_over p;
     fileName_text := fileName_text p;
     fileSize_text := fileSize_text p;
     fileType_text := fileType_text p;
     fileInfo_display := fileInfo_display p;
     analyzeBtn_disabled := disabled;
     placeholder_display := placeholder;
     loading_display := loading;
     results_display := results;
     results_innerHTML := content;
     pending := n |}.

(** The click handler up to the [await] of [fetch], lines 60-76: [None] when
    no file is selected and the handler returns at once, and otherwise the
    page in its loading state and the file that is sent. *)
Definition click_start (p : State) : option (State * BrowserFile) :=
  match selectedFile p with
  | None => None
  | Some file =>
    Some (set_progress DisplayNone DisplayBlock DisplayNone true
            (results_innerHTML p) (S (pending p)) p,
          file)
  end.

(** How the request ends: [fetch] rejects, or it resolves with a response
    that is [ok] or not and whose body parses as a JSON object or does
    not. *)
Inductive FetchResult : Type :=
| NetworkFailure
| HttpResponse (ok : bool) (body : option JsonObject).

(** [displayResults(analysisResult)] on the page, lines 106-141: the loading
    element is hidden first; an exception of the template leaves the rest as
    it was. *)
Definition displayResults_page (now : jstring) (analysisResult : JsonObject)
    (p : State) : State * Completion unit :=
  let p1 := set_progress (placeholder_display p) DisplayNone (results_display p)
              (analyzeBtn_disabled p) (results_innerHTML p) (pending p) p in
  match displayResults now analysisResult with
  | Normal r =>
    (set_progress (placeholder_display p1) (loading_display p1) DisplayBlock
       (analyzeBtn_disabled p1) (Report r) (pending p1) p1,
     Normal tt)
  | Throw e => (p1, Throw e)
  end.

(** [displayError(message)], lines 162-170. *)
Definition displayError (message : jstring) (p : State) : State :=
  set_progress (placeholder_display p) (loading_display p) DisplayBlock
    (analyzeBtn_disabled p) (ErrorBox message) (pending p) p.

Definition failed_message : jstring :=
  lit "Failed to analyze document. Please try again.".

(** The click handler from the end of the request on, lines 78-91: the
    [try] block, the [catch] block for whatever it throws, and the
    [finally] block. *)
Definition click_finish (now : jstring) (result : FetchResult) (p : State)
    : State :=
  let '(p1, c) :=
    match result with
    | NetworkFailure => (p, Throw (TypeError (lit "Failed to fetch")))
    | HttpResponse false _ => (p, Throw (Error (lit "Analysis failed")))
    | HttpResponse true None =>
      (p, Throw (Error (lit "Unexpected token in JSON")))
    | HttpResponse true (Some analysisResult) =>
      displayResults_page now analysisResult p
    end in
  let p2 :=
    match c with
    | Normal _ => p1
    | Throw _ => displayError failed_message p1
    end in
  set_progress (placeholder_display p2) DisplayNone (results_display p2) false
    (results_innerHTML p2) (Nat.pred (pending p2)) p2.

(** What happens on the page.  A click reaches the handler only when the
    button is not disabled, and a request can end only when one is under
    way. *)
Inductive Event : Type :=
| DragOver
| DragLeave
| Drop (files : list BrowserFile)
| Change (files : list BrowserFile)
| Click
| Settle (now : jstring) (result : FetchResult).

Definition step (scaled : N -> jstring) (ev : Event) (p : State)
    : option State :=
  match ev with
  | DragOver => Some (on_dragover p)
  | DragLeave => Some (on_dragleave p)
  | Drop files => Some (on_drop scaled files p)
  | Change files => Some (on_change scaled files p)
  | Click =>
    if analyzeBtn_disabled p then None
    else match click_start p with
         | Some (p', _) => Some p'
         | None => Some p
         end
  | Settle now result =>
    match pending p with
    | 0 => None
    | S _ => Some (click_finish now result p)
    end
  end.

Fixpoint run (scaled : N -> jstring) (evs : list Event) (p : State)
    : option State :=
  match evs with
  | [] => Some p
  | ev :: evs' =>
    match step scaled ev p with
    | Some p' => run scaled evs' p'
    | None => None
    end
  end.

(** What the page keeps true from its first state on. *)
Definition consistent (p : State) : Prop :=
  (analyzeBtn_disabled p = false -> selectedFile p <> None) /\
  (0 < pending p -> selectedFile p <> None) /\
  (0 < pending p -> placeholder_display p = DisplayNone) /\
  (pending p = 0 -> loading_display p = DisplayNone) /\
  (results_display p = DisplayBlock ->
   placeholder_display p = DisplayNone /\ results_innerHTML p <> InitialMarkup).

(** *** A sample page, for the examples *)

(** The page as it is loaded: nothing selected, the button disabled, the
    placeholder shown. *)
Definition loaded : State :=
  mkState None false [] [] [] DisplayNone true DisplayBlock DisplayNone
          DisplayNone InitialMarkup 0.

Definition contract_file : BrowserFile :=
  mkBrowserFile (lit "contract.pdf") 2097152 (lit "application/pdf").

Definition scan_file : BrowserFile :=
  mkBrowserFile (lit "scan.png") 0 [].

(** A stand-in for the floating point part of [formatFileSize]. *)
Definition two_megabytes (bytes : N) : jstring := lit "2 MB".

(** A file is chosen, the button clicked, another file dropped while the
    request is under way, and the request ends with the answer for a file
    that is too large. *)
Definition sample_events : list Event :=
  [ Change [contract_file];
    Click;
    Drop [scan_file];
    Settle (lit "1/1/2026")
      (HttpResponse false
         (Some (Server.failure (lit "File too large. Maximum size is 10MB.")))) ].

End Page.

Import Client.
Import Server.

(** ** The vocabulary of the statements *)

(** Two lines, the first one ended by a line feed. *)
Definition nl (a b : jstring) : jstring := a ++ LF :: b.

(** A text with the four markers and something in front of the first. *)
Definition four_sections : jstring :=
  lit "Intro KEY IMPORTANT POINTS a SUSPICIOUS ELEMENTS b RISK ASSESSMENT c RECOMMENDATIONS d".

(** [m] occurs in [t] at index [i]. *)
Definition occurs_at (m t : jstring) (i : nat) : Prop :=
  exists pre post, t = pre ++ m ++ post /\ length pre = i.

(** [i] is the index of the first occurrence of [m] in [t] at or after
    [p]. *)
Definition first_from (m t : jstring) (p i : nat) : Prop :=
  p <= i /\ occurs_at m t i /\ forall k, p <= k < i -> ~ occurs_at m t k.

Definition absent_from (m t : jstring) (p : nat) : Prop :=
  forall k, p <= k -> ~ occurs_at m t k.

(** The code units of [t] with an index from [a] up to, not including, [b]. *)
Definition slice (t : jstring) (a b : nat) : jstring :=
  firstn (b - a) (skipn a t).

Definition all_white (s : jstring) : Prop :=
  Forall (fun c => is_white_space c = true) s.

(** No white space at either end. *)
Definition trimmed (s : jstring) : Prop :=
  (forall c s', s = c :: s' -> is_white_space c = false) /\
  (forall c s', s = s' ++ [c] -> is_white_space c = false).

(** [r] is [s] without the white space at its two ends. *)
Definition trim_of (s r : jstring) : Prop :=
  exists a b, s = a ++ r ++ b /\ all_white a /\ all_white b /\ trimmed r.

(** Where a section ends: at the first occurrence of a non-empty end marker
    at or after the content offset [cs], and at the end of the text when the
    end marker is [null], is the empty string or does not occur from [cs]
    on. *)
Definition section_end (t : jstring) (endMarker : option jstring)
    (cs e : nat) : Prop :=
  match endMarker with
  | Some (c :: m) =>
    first_from (c :: m) t cs e \/ (absent_from (c :: m) t cs /\ e = length t)
  | _ => e = length t
  end.

(** The code unit in front of the position reached after [a], when [prev]
    was in front of [a]. *)
Fixpoint prev_after (prev : option code_unit) (a : jstring) : option code_unit :=
  match a with
  | [] => prev
  | c :: a' => prev_after (Some c) a'
  end.

(** A line holds no line terminator. *)
Definition one_line (l : jstring) : Prop :=
  Forall (fun c => is_line_terminator c = false) l.

(** What the next line starts with, if there is one. *)
Definition line_end (rest : jstring) : Prop :=
  match rest with
  | [] => True
  | c :: _ => is_line_terminator c = true
  end.

(** What one bullet pattern makes of a line. *)
Definition item (b : code_unit) (l : jstring) : jstring :=
  if starts_with [b; SP] l then lit "<li>" ++ skipn 2 l ++ lit "</li>" else l.

(** What the two bullet patterns make of a line. *)
Definition list_item (l : jstring) : jstring :=
  if starts_with [DASH; SP] l || starts_with [STAR; SP] l
  then lit "<li>" ++ skipn 2 l ++ lit "</li>"
  else l.

(** The text after the two bullet patterns. *)
Definition bulletize (s : jstring) : jstring :=
  replace (bullet_line STAR) (replace (bullet_line DASH) s).

(** No line of [s] begins with a bullet prefix. *)
Definition no_bullet_lines (s : jstring) : Prop :=
  forall pre b post,
    s = pre ++ b :: SP :: post ->
    at_line_start (prev_after None pre) = true ->
    b <> DASH /\ b <> STAR.

Definition OPEN_LI : jstring := lit "<li>".
Definition CLOSE_LI : jstring := lit "</li>".
Definition OPEN_UL : jstring := lit "<ul>".
Definition CLOSE_UL : jstring := lit "</ul>".

(** What the list pattern makes of [t]: nothing when no opening tag has a
    closing tag behind it, and otherwise one container from the first opening
    tag to the last closing tag, whatever lies between them. *)
Definition wrapped_once (t out : jstring) : Prop :=
  (out = t /\
   forall i j, occurs_at OPEN_LI t i -> occurs_at CLOSE_LI t j -> j < i + 4)
  \/
  (exists pre body post,
     t = pre ++ OPEN_LI ++ body ++ CLOSE_LI ++ post /\
     out = pre ++ OPEN_UL ++ OPEN_LI ++ body ++ CLOSE_LI ++ CLOSE_UL ++ post /\
     first_from OPEN_LI t 0 (length pre) /\
     forall j, occurs_at CLOSE_LI t j -> j <= length pre + 4 + length body).

(** The number of line feeds of a text. *)
Definition count_lf (s : jstring) : nat :=
  length (filter (fun c => (c =? LF)%N) s).

(** The number of positions of [s] where [needle] occurs. *)
Fixpoint count_matches (needle s : jstring) : nat :=
  match s with
  | [] => 0
  | _ :: s' => (if starts_with needle s then 1 else 0) + count_matches needle s'
  end.

(** The lines of a text, and the number of maximal runs of bulleted lines
    among them (the runs the specification speaks of). *)
Fixpoint split_lines (s : jstring) : list jstring :=
  match s with
  | [] => [[]]
  | c :: s' =>
    if is_line_terminator c then [] :: split_lines s'
    else match split_lines s' with
         | l :: ls => (c :: l) :: ls
         | [] => [[c]]
         end
  end.

Definition is_bullet_line (l : jstring) : bool :=
  starts_with [DASH; SP] l || starts_with [STAR; SP] l.

Fixpoint runs (prev : bool) (bs : list bool) : nat :=
  match bs with
  | [] => 0
  | x :: bs' => (if x && negb prev then 1 else 0) + runs x bs'
  end.

Definition bullet_runs (s : jstring) : nat :=
  runs false (map is_bullet_line (split_lines s)).

(** The end of a section in the words of the specification, which treat
    every end marker that is a string alike. *)
Definition section_end_stated (t : jstring) (endMarker : option jstring)
    (cs e : nat) : Prop :=
  match endMarker with
  | Some m => first_from m t cs e \/ (absent_from m t cs /\ e = length t)
  | None => e = length t
  end.

(** All that [displayResults] writes into the page besides the fixed
    markup. *)
Definition rendered_text (r : Rendered) : jstring :=
  key_points r ++ suspicious r ++ risk r ++ recommendations r
  ++ completed r
  ++ match document r with
     | JStr s => s
     | JNull => lit "null"
     | JUndefined => lit "undefined"
     end.

(** What the last pattern makes of a code unit. *)
Definition br (c : code_unit) : jstring :=
  if (c =? LF)%N then lit "<br>" else [c].

(** The strings of [ls] with [sep] between them ([Array.prototype.join]). *)
Fixpoint join (sep : jstring) (ls : list jstring) : jstring :=
  match ls with
  | [] => []
  | [l] => l
  | l :: ls' => l ++ sep ++ join sep ls'
  end.

(** What [fetch] makes of the one response of the server: [ok] is a status
    from 200 to 299, and the body parses to the object that was sent. *)
Definition response_of (t : list Server.Event) : Page.FetchResult :=
  match responses t with
  | [(status, body)] =>
    Page.HttpResponse ((200 <=? status)%N && (status <=? 299)%N) (Some body)
  | _ => Page.NetworkFailure
  end.

(** The extension the server works with. *)
Definition fileExtension_of (w : World) (originalName : jstring) : jstring :=
  toLowerCase w (extname w originalName).

(** ** Strings *)

Section Strings.

Lemma starts_with_app (p post : jstring) : starts_with p (p ++ post) = true.
Proof.
  induction p as [|x p IH]; simpl; [reflexivity|].
  now rewrite N.eqb_refl, IH.
Qed.

Lemma starts_with_inv (p s : jstring) :
  starts_with p s = true -> exists post, s = p ++ post.
Proof.
  revert s; induction p as [|x p IH]; intros s H; simpl in *.
  - now exists s.
  - destruct s as [|y s]; [discriminate|].
    apply andb_true_iff in H as [Hxy Hp].
    apply N.eqb_eq in Hxy; subst y.
    destruct (IH _ Hp) as [post ->]. now exists post.
Qed.

Lemma occurs_at_iff (m t : jstring) (i : nat) :
  occurs_at m t i <-> i <= length t /\ starts_with m (skipn i t) = true.
Proof.
  split.
  - intros (pre & post & -> & <-). split.
    + rewrite length_app. lia.
    + rewrite skipn_app, skipn_all, Nat.sub_diag. simpl.
      apply starts_with_app.
  - intros [Hi H]. apply starts_with_inv in H as [post Hpost].
    exists (firstn i t), post. split.
    + rewrite <- Hpost. symmetry. apply firstn_skipn.
    + apply firstn_length_le. exact Hi.
Qed.

Lemma search_Some (m s : jstring) (k i : nat) :
  search m s k = Some i ->
  k <= i /\ i - k <= length s /\ starts_with m (skipn (i - k) s) = true /\
  forall j, k <= j < i -> starts_with m (skipn (j - k) s) = false.
Proof.
  revert k; induction s as [|c s IH]; intros k H; simpl in H.
  - destruct (starts_with m []) eqn:E; [|discriminate].
    injection H as <-. rewrite Nat.sub_diag. simpl.
    repeat split; try lia. exact E.
  - destruct (starts_with m (c :: s)) eqn:E.
    + injection H as <-. rewrite Nat.sub_diag.
      repeat split; try lia. exact E.
    + apply IH in H as (Hk & Hlen & Hat & Hbefore).
      replace (i - k) with (S (i - S k)) by lia. simpl.
      repeat split; try lia; [exact Hat|].
      intros j Hj. destruct (Nat.eq_dec j k) as [->|Hne].
      * rewrite Nat.sub_diag. exact E.
      * replace (j - k) with (S (j - S k)) by lia. simpl.
        apply Hbefore. lia.
Qed.

Lemma search_None (m s : jstring) (k : nat) :
  search m s k = None -> forall j, starts_with m (skipn j s) = false.
Proof.
  revert k; induction s as [|c s IH]; intros k H j; simpl in H.
  - destruct (starts_with m []) eqn:E; [discriminate|].
    now rewrite skipn_nil.
  - destruct (starts_with m (c :: s)) eqn:E; [discriminate|].
    destruct j as [|j]; [exact E|]. simpl. exact (IH _ H j).
Qed.

Lemma indexOf_Some (t m : jstring) (p i : nat) :
  indexOf t m p = Some i -> first_from m t (Nat.min p (length t)) i.
Proof.
  unfold indexOf. intros H.
  apply search_Some in H as (Hk & Hlen & Hat & Hbefore).
  rewrite length_skipn in Hlen.
  rewrite skipn_skipn in Hat.
  replace (i - Nat.min p (length t) + Nat.min p (length t)) with i in Hat by lia.
  split; [exact Hk|]. split.
  - apply occurs_at_iff. split; [lia|exact Hat].
  - intros k Hkk Hocc. apply occurs_at_iff in Hocc as [_ Hocc].
    specialize (Hbefore k Hkk). rewrite skipn_skipn in Hbefore.
    replace (k - Nat.min p (length t) + Nat.min p (length t)) with k in Hbefore by lia.
    congruence.
Qed.

Lemma indexOf_None (t m : jstring) (p : nat) :
  indexOf t m p = None -> absent_from m t (Nat.min p (length t)).
Proof.
  unfold indexOf. intros H k Hk Hocc.
  apply occurs_at_iff in Hocc as [_ Hocc].
  pose proof (search_None _ _ _ H (k - Nat.min p (length t))) as Hn.
  rewrite skipn_skipn in Hn.
  replace (k - Nat.min p (length t) + Nat.min p (length t)) with k in Hn by lia.
  congruence.
Qed.

Lemma first_from_unique (m t : jstring) (p i j : nat) :
  first_from m t p i -> first_from m t p j -> i = j.
Proof.
  intros (Hi & Oi & Bi) (Hj & Oj & Bj).
  destruct (Nat.lt_trichotomy i j) as [H|[H|H]]; [|exact H|].
  - exfalso. apply (Bj i); [lia|exact Oi].
  - exfalso. apply (Bi j); [lia|exact Oj].
Qed.

Lemma indexOf_first (t m : jstring) (p i : nat) :
  p <= length t -> first_from m t p i -> indexOf t m p = Some i.
Proof.
  intros Hp Hf. destruct (indexOf t m p) as [j|] eqn:E.
  - apply indexOf_Some in E. rewrite Nat.min_l in E by exact Hp.
    f_equal. eapply first_from_unique; eassumption.
  - apply indexOf_None in E. rewrite Nat.min_l in E by exact Hp.
    destruct Hf as (Hi & Oi & _). exfalso. exact (E i Hi Oi).
Qed.

Lemma substring_slice (t : jstring) (a b : nat) :
  a <= b -> b <= length t -> substring t a b = slice t a b.
Proof.
  intros Hab Hb. unfold substring, slice.
  rewrite (Nat.min_l a), (Nat.min_l b) by lia.
  rewrite Nat.min_l, Nat.max_r by lia. reflexivity.
Qed.

Lemma trimStart_spec (s : jstring) :
  exists a, s = a ++ trimStart s /\ all_white a /\
            forall c s', trimStart s = c :: s' -> is_white_space c = false.
Proof.
  induction s as [|c s (a & Ha & Wa & Hh)]; simpl.
  - exists []. repeat split; [constructor|discriminate].
  - destruct (is_white_space c) eqn:E.
    + exists (c :: a). simpl. split; [now f_equal|].
      split; [now constructor|exact Hh].
    + exists []. simpl. repeat split; [constructor|].
      intros c' s' H. now injection H as <- <-.
Qed.

Lemma all_white_rev (a : jstring) : all_white a -> all_white (rev a).
Proof. unfold all_white. apply Forall_rev. Qed.

Lemma trim_spec (s : jstring) : trim_of s (trim s).
Proof.
  unfold trim, trimEnd.
  destruct (trimStart_spec s) as (a & Ha & Wa & Hhead).
  destruct (trimStart_spec (rev (trimStart s))) as (b & Hb & Wb & Hlast).
  set (u := trimStart s) in *. set (v := trimStart (rev u)) in *.
  assert (Hu : u = rev v ++ rev b).
  { rewrite <- rev_app_distr, <- Hb. symmetry. apply rev_involutive. }
  exists a, (rev b). split; [|split; [exact Wa|split; [now apply all_white_rev|]]].
  - rewrite <- Hu. exact Ha.
  - split.
    + intros c s' Hr. apply (Hhead c (s' ++ rev b)).
      rewrite Hu, Hr. reflexivity.
    + intros c s' Hr. apply (Hlast c (rev s')).
      rewrite <- (rev_involutive v), Hr, rev_app_distr. reflexivity.
Qed.

End Strings.

(** ** Section extraction *)

Section Extraction.

Variables (t startMarker : jstring) (endMarker : option jstring).

Lemma extractSection_absent :
  absent_from startMarker t 0 ->
  extractSection (JStr t) startMarker endMarker = Normal sentinel.
Proof.
  intros Habs. unfold extractSection. simpl.
  destruct (indexOf t startMarker 0) as [i|] eqn:E; [|reflexivity].
  apply indexOf_Some in E as (Hi & Oi & _).
  exfalso. apply (Habs i); [lia|exact Oi].
Qed.

Lemma first_from_bound (m : jstring) (p i : nat) :
  first_from m t p i -> i + length m <= length t.
Proof.
  intros (_ & (pre & post & -> & <-) & _).
  rewrite !length_app. lia.
Qed.

Lemma extractSection_found (i : nat) :
  first_from startMarker t 0 i ->
  exists e,
    section_end t endMarker (i + length startMarker) e /\
    i + length startMarker <= e <= length t /\
    extractSection (JStr t) startMarker endMarker
    = Normal (trim (slice t (i + length startMarker) e)).
Proof.
  intros Hf. pose proof (first_from_bound _ _ _ Hf) as Hb.
  unfold extractSection. simpl.
  rewrite (indexOf_first t startMarker 0 i) by (lia || exact Hf).
  destruct endMarker as [[|c m]|].
  - exists (length t). split; [reflexivity|]. split; [lia|].
    now rewrite substring_slice by lia.
  - destruct (indexOf t (c :: m) (i + length startMarker)) as [j|] eqn:E.
    + apply indexOf_Some in E. rewrite Nat.min_l in E by exact Hb.
      pose proof (first_from_bound _ _ _ E) as Hj. simpl in Hj.
      destruct E as (Hle & Hrest).
      exists j. split; [left; split; assumption|]. split; [lia|].
      now rewrite substring_slice by lia.
    + apply indexOf_None in E. rewrite Nat.min_l in E by exact Hb.
      exists (length t). split; [right; split; [exact E|reflexivity]|].
      split; [lia|]. now rewrite substring_slice by lia.
  - exists (length t). split; [reflexivity|]. split; [lia|].
    now rewrite substring_slice by lia.
Qed.

End Extraction.




(** ** The replace loop *)

Section ReplaceLoop.

Variable m : Matcher.

Lemma replace_loop_skip (a b : jstring) (prev : option code_unit) :
  replace_loop m (length a) prev (a ++ b)
  = replace_loop m 0 (prev_after prev a) b.
Proof.
  revert prev; induction a as [|c a IH]; intros prev; simpl.
  - destruct b; reflexivity.
  - apply IH.
Qed.

(** A match of [n] code units at the head of [u]. *)
Lemma replace_loop_match (u r : jstring) (n : nat) (prev : option code_unit) :
  m prev u = Some (r, n) -> 0 < n <= length u ->
  replace_loop m 0 prev u
  = r ++ replace_loop m 0 (prev_after prev (firstn n u)) (skipn n u).
Proof.
  intros Hm Hn. destruct u as [|c u]; [simpl in Hn; lia|].
  destruct n as [|k]; [lia|]. simpl in Hn.
  cbn [replace_loop]. rewrite Hm. f_equal.
  rewrite <- (firstn_skipn k u) at 1.
  replace k with (length (firstn k u)) at 1 by (apply firstn_length_le; lia).
  rewrite replace_loop_skip. reflexivity.
Qed.

(** Where the pattern matches nowhere the text is copied. *)
Lemma replace_loop_copy (a b : jstring) (prev : option code_unit) :
  (forall pre post, a = pre ++ post -> post <> [] ->
                    m (prev_after prev pre) (post ++ b) = None) ->
  replace_loop m 0 prev (a ++ b)
  = a ++ replace_loop m 0 (prev_after prev a) b.
Proof.
  revert prev; induction a as [|c a IH]; intros prev H; [reflexivity|].
  assert (H0 : m prev (c :: a ++ b) = None)
    by (apply (H [] (c :: a) eq_refl); discriminate).
  cbn [app replace_loop]. rewrite H0.
  f_equal. apply IH. intros pre post -> Hpost.
  apply (H (c :: pre) post eq_refl Hpost).
Qed.

Lemma replace_loop_id (s : jstring) (prev : option code_unit) :
  (forall pre post, s = pre ++ post -> m (prev_after prev pre) post = None) ->
  replace_loop m 0 prev s = s.
Proof.
  intros H. rewrite <- (app_nil_r s) at 1. rewrite replace_loop_copy.
  - simpl. rewrite (H s []) by (symmetry; apply app_nil_r).
    apply app_nil_r.
  - intros pre post -> _. rewrite app_nil_r. now apply H.
Qed.

End ReplaceLoop.

Lemma replace_newline (s : jstring) (prev : option code_unit) :
  replace_loop newline 0 prev s = flat_map br s.
Proof.
  revert prev; induction s as [|c s IH]; intros prev; [reflexivity|].
  cbn [replace_loop flat_map newline]. unfold br at 1.
  destruct (c =? LF)%N; cbn [app]; rewrite IH; reflexivity.
Qed.

(** ** The bullet patterns, line by line *)

Section BulletLines.

Variable b : code_unit.
Hypothesis b_in_line : is_line_terminator b = false.

Lemma dot_star_line (l rest : jstring) :
  one_line l -> line_end rest -> dot_star (l ++ rest) = l.
Proof.
  intros Hl Hrest. induction Hl as [|c l Hc Hl IH]; cbn [app dot_star].
  - destruct rest as [|t rest]; [reflexivity|].
    cbn [line_end dot_star] in *. now rewrite Hrest.
  - now rewrite Hc, IH.
Qed.

Lemma at_line_start_after (l : jstring) (prev : option code_unit) :
  one_line l -> l <> [] -> at_line_start (prev_after prev l) = false.
Proof.
  intros Hl. revert prev. induction Hl as [|c l Hc Hl IH]; intros prev Hne.
  - congruence.
  - simpl. destruct l as [|d l]; [exact Hc|]. apply IH. discriminate.
Qed.

Lemma starts_with_bullet_line (l rest : jstring) :
  line_end rest -> starts_with [b; SP] (l ++ rest) = starts_with [b; SP] l.
Proof.
  intros Hrest.
  assert (Hb : forall t, is_line_terminator t = true -> (b =? t)%N = false).
  { intros t Ht. apply N.eqb_neq. intros <-. congruence. }
  assert (Hsp : forall t, is_line_terminator t = true -> (SP =? t)%N = false).
  { intros t Ht. apply N.eqb_neq. intros <-. discriminate. }
  destruct l as [|c [|d l]]; cbn [app starts_with].
  - destruct rest as [|t rest]; [reflexivity|].
    cbn [line_end] in Hrest. now rewrite (Hb _ Hrest).
  - destruct rest as [|t rest]; [reflexivity|].
    cbn [line_end] in Hrest. rewrite (Hsp _ Hrest). reflexivity.
  - reflexivity.
Qed.

Lemma bullet_line_inside (prev : option code_unit) (s : jstring) :
  at_line_start prev = false -> bullet_line b prev s = None.
Proof. intros H. unfold bullet_line. now rewrite H. Qed.

Lemma bullet_line_prev (p q : option code_unit) (s : jstring) :
  at_line_start p = at_line_start q ->
  replace_loop (bullet_line b) 0 p s = replace_loop (bullet_line b) 0 q s.
Proof.
  intros H. destruct s as [|c s]; cbn [replace_loop]; unfold bullet_line;
    rewrite H; reflexivity.
Qed.

(** One line, from its start to the line terminator that ends it. *)
Lemma bullet_line_step (l rest : jstring) (prev : option code_unit) :
  at_line_start prev = true -> one_line l -> line_end rest ->
  replace_loop (bullet_line b) 0 prev (l ++ rest)
  = item b l ++ replace_loop (bullet_line b) 0 (prev_after prev l) rest.
Proof.
  intros Hprev Hl Hrest. unfold item.
  destruct (starts_with [b; SP] l) eqn:E.
  - pose proof E as E'.
    destruct l as [|c [|d l]]; cbn [starts_with] in E';
      [discriminate | rewrite andb_false_r in E'; discriminate |].
    assert (Hl'' : one_line l).
    { inversion Hl as [|? ? _ Hl']. now inversion Hl'. }
    rewrite (replace_loop_match _ _
               (lit "<li>" ++ l ++ lit "</li>") (2 + length l)).
    + replace (firstn (2 + length l) ((c :: d :: l) ++ rest)) with (c :: d :: l).
      * replace (skipn (2 + length l) ((c :: d :: l) ++ rest)) with rest.
        -- cbn [skipn]. rewrite <- !app_assoc. reflexivity.
        -- cbn [plus skipn app]. now rewrite skipn_app, skipn_all, Nat.sub_diag.
      * cbn [plus firstn app]. do 2 f_equal.
        now rewrite firstn_app, firstn_all, Nat.sub_diag, app_nil_r.
    + unfold bullet_line. rewrite Hprev, starts_with_bullet_line, E by exact Hrest.
      cbn [andb app skipn]. rewrite dot_star_line by assumption. reflexivity.
    + rewrite length_app. simpl. lia.
  - apply replace_loop_copy. intros pre post -> Hpost.
    destruct pre as [|c pre].
    + unfold bullet_line. cbn [prev_after app] in *.
      rewrite starts_with_bullet_line, E by exact Hrest.
      now rewrite andb_false_r.
    + apply bullet_line_inside. apply at_line_start_after; [|discriminate].
      unfold one_line in *. apply Forall_app in Hl. apply Hl.
Qed.

Lemma bullet_at_terminator (t : code_unit) (rest : jstring)
    (prev : option code_unit) :
  is_line_terminator t = true ->
  replace_loop (bullet_line b) 0 prev (t :: rest)
  = t :: replace_loop (bullet_line b) 0 (Some t) rest.
Proof.
  intros Ht. cbn [replace_loop]. unfold bullet_line at 1.
  replace (starts_with [b; SP] (t :: rest)) with false.
  - now rewrite andb_false_r.
  - simpl. replace (b =? t)%N with false; [reflexivity|].
    symmetry. apply N.eqb_neq. intros <-. congruence.
Qed.

(** The last line of the text. *)
Lemma replace_bullet_last (l : jstring) :
  one_line l -> replace (bullet_line b) l = item b l.
Proof.
  intros Hl. unfold replace.
  rewrite <- (app_nil_r l) at 1.
  rewrite bullet_line_step by (exact Hl || exact I || reflexivity).
  cbn [replace_loop]. unfold bullet_line.
  cbn [starts_with]. rewrite andb_false_r. apply app_nil_r.
Qed.

(** A line that a line terminator ends: the terminator stays, and the
    pattern goes on with the next line. *)
Lemma replace_bullet_line (l rest : jstring) (t : code_unit) :
  one_line l -> is_line_terminator t = true ->
  replace (bullet_line b) (l ++ t :: rest)
  = item b l ++ t :: replace (bullet_line b) rest.
Proof.
  intros Hl Ht. unfold replace.
  rewrite bullet_line_step by (exact Hl || exact Ht || reflexivity).
  rewrite bullet_at_terminator by exact Ht.
  do 2 f_equal. apply bullet_line_prev. simpl. exact Ht.
Qed.

End BulletLines.

(** ** The list pattern *)

Section ListSpan.

Lemma lastIndexOf_Some (m s : jstring) (k : nat) :
  lastIndexOf m s = Some k ->
  k <= length s /\ starts_with m (skipn k s) = true /\
  forall j, k < j <= length s -> starts_with m (skipn j s) = false.
Proof.
  revert k; induction s as [|c s IH]; intros k H; cbn [lastIndexOf] in H.
  - destruct (starts_with m []) eqn:E; [|discriminate]. injection H as <-.
    split; [simpl; lia|]. split; [exact E|]. simpl. lia.
  - destruct (lastIndexOf m s) as [k'|] eqn:L.
    + injection H as <-. destruct (IH _ eq_refl) as (Hk & Hat & Hafter).
      split; [simpl; lia|]. split; [exact Hat|].
      intros [|j] Hj; [lia|]. cbn [skipn]. apply Hafter. simpl in Hj. lia.
    + destruct (starts_with m (c :: s)) eqn:E; [|discriminate].
      injection H as <-. split; [simpl; lia|]. split; [exact E|].
      intros [|j] Hj; [lia|]. cbn [skipn].
      clear IH E Hj. revert j. induction s as [|d s IHs]; intros j.
      * cbn [lastIndexOf] in L. rewrite skipn_nil.
        destruct (starts_with m []); [discriminate|reflexivity].
      * cbn [lastIndexOf] in L.
        destruct (lastIndexOf m s); [discriminate|].
        destruct (starts_with m (d :: s)) eqn:E; [discriminate|].
        destruct j as [|j]; [exact E|]. cbn [skipn]. now apply IHs.
Qed.

Lemma lastIndexOf_None (m s : jstring) :
  lastIndexOf m s = None -> forall j, starts_with m (skipn j s) = false.
Proof.
  induction s as [|d s IHs]; intros L j; cbn [lastIndexOf] in L.
  - rewrite skipn_nil. destruct (starts_with m []); [discriminate|reflexivity].
  - destruct (lastIndexOf m s); [discriminate|].
    destruct (starts_with m (d :: s)) eqn:E; [discriminate|].
    destruct j as [|j]; [exact E|]. cbn [skipn]. now apply IHs.
Qed.

Lemma list_span_no_close (u : jstring) (prev : option code_unit) :
  (forall j, starts_with CLOSE_LI (skipn j u) = false) ->
  list_span prev u = None.
Proof.
  intros H. unfold list_span.
  destruct (starts_with (lit "<li>") u); [|reflexivity].
  destruct (lastIndexOf (lit "</li>") (skipn 4 u)) as [k|] eqn:L; [|reflexivity].
  apply lastIndexOf_Some in L as (_ & Hat & _).
  rewrite skipn_skipn in Hat. unfold CLOSE_LI in H. now rewrite H in Hat.
Qed.

(** Behind the last closing tag the pattern matches nowhere. *)
Lemma list_span_after (post : jstring) (prev : option code_unit) :
  (forall j, starts_with CLOSE_LI (skipn j post) = false) ->
  replace_loop list_span 0 prev post = post.
Proof.
  intros H. apply replace_loop_id. intros pre u ->.
  apply list_span_no_close. intros j.
  specialize (H (j + length pre)).
  rewrite <- skipn_skipn in H.
  now rewrite skipn_app, skipn_all, Nat.sub_diag in H.
Qed.

Lemma list_span_match (u r : jstring) (n : nat) (prev : option code_unit) :
  list_span prev u = Some (r, n) ->
  exists body post,
    u = OPEN_LI ++ body ++ CLOSE_LI ++ post /\
    n = 4 + length body + 5 /\
    r = OPEN_UL ++ OPEN_LI ++ body ++ CLOSE_LI ++ CLOSE_UL /\
    (forall j, length body < j <= length (body ++ CLOSE_LI ++ post) ->
               starts_with CLOSE_LI (skipn j (body ++ CLOSE_LI ++ post)) = false).
Proof.
  unfold list_span. intros H.
  destruct (starts_with (lit "<li>") u) eqn:E; [|discriminate].
  apply starts_with_inv in E as [w ->].
  change (skipn 4 (lit "<li>" ++ w)) with w in H.
  destruct (lastIndexOf (lit "</li>") w) as [k|] eqn:L; [|discriminate].
  injection H as <- <-.
  apply lastIndexOf_Some in L as (Hk & Hat & Hafter).
  apply starts_with_inv in Hat as [post Hpost].
  exists (firstn k w), post.
  assert (Hw : w = firstn k w ++ CLOSE_LI ++ post).
  { unfold CLOSE_LI. rewrite <- Hpost. symmetry. apply firstn_skipn. }
  assert (Hlen : length (firstn k w) = k) by (apply firstn_length_le; exact Hk).
  assert (Hf : firstn (k + 5) w = firstn k w ++ CLOSE_LI).
  { rewrite Hw at 1. rewrite app_assoc.
    replace (k + 5) with (length (firstn k w ++ CLOSE_LI))
      by (rewrite length_app, Hlen; reflexivity).
    rewrite firstn_app, firstn_all, Nat.sub_diag. apply app_nil_r. }
  rewrite Hlen, <- Hw.
  split; [reflexivity|]. split; [reflexivity|]. split; [|exact Hafter].
  cbn [plus app firstn lit]. rewrite Hf, <- app_assoc. reflexivity.
Qed.

Lemma list_span_replace (t : jstring) (prev : option code_unit) :
  (replace_loop list_span 0 prev t = t /\
   forall j, list_span None (skipn j t) = None)
  \/
  (exists pre body post,
     t = pre ++ OPEN_LI ++ body ++ CLOSE_LI ++ post /\
     replace_loop list_span 0 prev t
     = pre ++ OPEN_UL ++ OPEN_LI ++ body ++ CLOSE_LI ++ CLOSE_UL ++ post /\
     (forall j, j < length pre -> list_span None (skipn j t) = None) /\
     (forall j, length body < j <= length (body ++ CLOSE_LI ++ post) ->
                starts_with CLOSE_LI (skipn j (body ++ CLOSE_LI ++ post)) = false)).
Proof.
  revert prev; induction t as [|c t IH]; intros prev.
  - left. split; [reflexivity|]. intros j. now rewrite skipn_nil.
  - destruct (list_span prev (c :: t)) as [[r n]|] eqn:E.
    + right. pose proof E as E'.
      apply list_span_match in E' as (body & post & Hu & Hn & Hr & Hlast).
      exists [], body, post. split; [exact Hu|]. split.
      * rewrite (replace_loop_match _ _ _ _ _ E).
        2:{ rewrite Hn, Hu, !length_app. simpl. lia. }
        rewrite Hr, Hu, Hn. cbn [app].
        replace (4 + length body + 5)
          with (length (OPEN_LI ++ body ++ CLOSE_LI))
          by (rewrite !length_app; simpl; lia).
        rewrite !app_assoc, skipn_app, skipn_all, Nat.sub_diag.
        cbn [skipn app]. rewrite list_span_after.
        -- rewrite <- !app_assoc. reflexivity.
        -- intros j.
           destruct (Nat.le_gt_cases j (length post)) as [Hj|Hj].
           ++ assert (Hs : skipn (j + length (body ++ CLOSE_LI))
                                 (body ++ CLOSE_LI ++ post) = skipn j post).
              { rewrite <- skipn_skipn, app_assoc.
                now rewrite skipn_app, skipn_all, Nat.sub_diag. }
              rewrite <- Hs. apply Hlast.
              rewrite !length_app. simpl. lia.
           ++ rewrite skipn_all2 by lia. reflexivity.
      * split; [simpl; intros j Hj; lia|exact Hlast].
    + assert (E0 : list_span None (c :: t) = None) by exact E.
      cbn [replace_loop]. rewrite E.
      destruct (IH (Some c)) as [[Hid Hnone]|(pre & body & post & Ht & Hout & Hpre & Hlast)].
      * left. split; [now rewrite Hid|].
        intros [|j]; [exact E0|apply Hnone].
      * right. exists (c :: pre), body, post. split; [now rewrite Ht|].
        split; [now rewrite Hout|]. split; [|exact Hlast].
        intros [|j] Hj; [exact E0|]. apply Hpre. simpl in Hj. lia.
Qed.

Lemma skipn_past (a b : jstring) (j : nat) :
  skipn (j + length a) (a ++ b) = skipn j b.
Proof.
  rewrite <- skipn_skipn. now rewrite skipn_app, skipn_all, Nat.sub_diag.
Qed.

Lemma list_span_None_open (u : jstring) :
  list_span None u = None -> starts_with OPEN_LI u = true ->
  forall j, starts_with CLOSE_LI (skipn (j + 4) u) = false.
Proof.
  unfold list_span, OPEN_LI, CLOSE_LI. intros H Ho j. rewrite Ho in H.
  destruct (lastIndexOf (lit "</li>") (skipn 4 u)) eqn:L; [discriminate|].
  rewrite <- skipn_skipn. now apply lastIndexOf_None.
Qed.

(** The list pattern puts at most one container into the text. *)
Lemma replace_list_span_once (t : jstring) :
  wrapped_once t (replace list_span t).
Proof.
  unfold replace.
  destruct (list_span_replace t None)
    as [[Hid Hnone]|(pre & body & post & Ht & Hout & Hpre & Hlast)].
  - left. split; [exact Hid|]. intros i j Hi Hj.
    destruct (Nat.lt_ge_cases j (i + 4)) as [Hlt|Hge]; [exact Hlt|exfalso].
    apply occurs_at_iff in Hi as [_ Hi]. apply occurs_at_iff in Hj as [_ Hj].
    pose proof (list_span_None_open _ (Hnone i) Hi (j - i - 4)) as Hc.
    rewrite skipn_skipn in Hc.
    replace (j - i - 4 + 4 + i) with j in Hc by lia. congruence.
  - right. exists pre, body, post. split; [exact Ht|]. split; [exact Hout|].
    assert (Hclose : starts_with CLOSE_LI (skipn (length pre + 4 + length body) t) = true).
    { rewrite Ht.
      replace (pre ++ OPEN_LI ++ body ++ CLOSE_LI ++ post)
        with ((pre ++ OPEN_LI ++ body) ++ CLOSE_LI ++ post)
        by (now rewrite <- !app_assoc).
      replace (length pre + 4 + length body)
        with (0 + length (pre ++ OPEN_LI ++ body))
        by (rewrite !length_app; simpl; lia).
      rewrite skipn_past. apply starts_with_app. }
    split; [split; [lia|split]|].
    + exists pre, (body ++ CLOSE_LI ++ post). split; [exact Ht|reflexivity].
    + intros k [_ Hk] Hocc. apply occurs_at_iff in Hocc as [_ Hocc].
      pose proof (list_span_None_open _ (Hpre k Hk) Hocc
                    (length pre + length body - k)) as Hc.
      rewrite skipn_skipn in Hc.
      replace (length pre + length body - k + 4 + k)
        with (length pre + 4 + length body) in Hc by lia.
      congruence.
    + intros j Hj.
      destruct (Nat.le_gt_cases j (length pre + 4 + length body)) as [Hle|Hgt];
        [exact Hle|exfalso].
      apply occurs_at_iff in Hj as [Hjt Hj].
      rewrite Ht, !length_app in Hjt.
      specialize (Hlast (j - length pre - 4)).
      replace (skipn j t) with (skipn (j - length pre - 4) (body ++ CLOSE_LI ++ post)) in Hj.
      * rewrite Hlast in Hj; [discriminate|].
        rewrite !length_app. simpl in *. lia.
      * rewrite Ht.
        replace (pre ++ OPEN_LI ++ body ++ CLOSE_LI ++ post)
          with ((pre ++ OPEN_LI) ++ body ++ CLOSE_LI ++ post)
          by (now rewrite <- !app_assoc).
        replace j with (j - length pre - 4 + length (pre ++ OPEN_LI)) at 2
          by (rewrite length_app; simpl; lia).
        now rewrite skipn_past.
Qed.

End ListSpan.

(** ** The two bullet patterns together *)

Section Bulletize.

(** Every text is a last line, or a line, its terminator and a text. *)
Lemma lines_ind (P : jstring -> Prop) :
  (forall l, one_line l -> P l) ->
  (forall l t rest,
      one_line l -> is_line_terminator t = true -> P rest ->
      P (l ++ t :: rest)) ->
  forall s, P s.
Proof.
  intros Hlast Hline s.
  enough (H : forall l, one_line l -> P (l ++ s)) by (apply (H []); constructor).
  induction s as [|c s IH]; intros l Hl.
  - rewrite app_nil_r. now apply Hlast.
  - destruct (is_line_terminator c) eqn:E.
    + apply Hline; [exact Hl|exact E|]. apply (IH []). constructor.
    + replace (l ++ c :: s) with ((l ++ [c]) ++ s) by (now rewrite <- app_assoc).
      apply IH. apply Forall_app. split; [exact Hl|]. now constructor.
Qed.

Lemma one_line_skipn (l : jstring) (n : nat) : one_line l -> one_line (skipn n l).
Proof.
  intros H. rewrite <- (firstn_skipn n l) in H.
  apply Forall_app in H. apply H.
Qed.

Lemma one_line_lit_li : one_line (lit "<li>") /\ one_line (lit "</li>").
Proof. split; repeat constructor. Qed.

Lemma one_line_item (b : code_unit) (l : jstring) :
  one_line l -> one_line (item b l).
Proof.
  intros H. unfold item. destruct (starts_with [b; SP] l); [|exact H].
  apply Forall_app. split; [apply one_line_lit_li|].
  apply Forall_app. split; [now apply one_line_skipn|apply one_line_lit_li].
Qed.

Lemma item_star_dash (l : jstring) : item STAR (item DASH l) = list_item l.
Proof.
  unfold item at 2, list_item.
  destruct (starts_with [DASH; SP] l); [reflexivity|].
  unfold item. cbn [orb]. reflexivity.
Qed.

Lemma bulletize_last (l : jstring) : one_line l -> bulletize l = list_item l.
Proof.
  intros H. unfold bulletize.
  rewrite (replace_bullet_last DASH) by (reflexivity || exact H).
  rewrite (replace_bullet_last STAR)
    by (reflexivity || now apply one_line_item).
  apply item_star_dash.
Qed.

Lemma bulletize_line (l rest : jstring) (t : code_unit) :
  one_line l -> is_line_terminator t = true ->
  bulletize (l ++ t :: rest) = list_item l ++ t :: bulletize rest.
Proof.
  intros H Ht. unfold bulletize.
  rewrite (replace_bullet_line DASH) by (reflexivity || assumption).
  rewrite (replace_bullet_line STAR)
    by (reflexivity || assumption || now apply one_line_item).
  now rewrite item_star_dash.
Qed.

Lemma count_lf_app (a b : jstring) : count_lf (a ++ b) = count_lf a + count_lf b.
Proof. unfold count_lf. now rewrite filter_app, length_app. Qed.

Lemma count_lf_one_line (l : jstring) : one_line l -> count_lf l = 0.
Proof.
  unfold count_lf. induction 1 as [|c l Hc _ IH]; [reflexivity|].
  cbn [filter]. replace (c =? LF)%N with false; [exact IH|].
  symmetry. apply N.eqb_neq. intros ->. discriminate.
Qed.

Lemma one_line_list_item (l : jstring) : one_line l -> one_line (list_item l).
Proof.
  intros H. rewrite <- item_star_dash. now do 2 apply one_line_item.
Qed.

(** The bullet patterns take no line feed away. *)
Lemma count_lf_bulletize (s : jstring) : count_lf (bulletize s) = count_lf s.
Proof.
  induction s as [l Hl|l t rest Hl Ht IH] using lines_ind.
  - rewrite bulletize_last by exact Hl.
    now rewrite !count_lf_one_line by (exact Hl || now apply one_line_list_item).
  - rewrite bulletize_line by assumption.
    rewrite !count_lf_app, !count_lf_one_line
      by (exact Hl || now apply one_line_list_item).
    change (t :: bulletize rest) with ([t] ++ bulletize rest).
    change (t :: rest) with ([t] ++ rest).
    now rewrite !count_lf_app, IH, (count_lf_one_line l Hl).
Qed.

(** Nor does the list pattern. *)
Lemma count_lf_list_span (t : jstring) :
  count_lf (replace list_span t) = count_lf t.
Proof.
  destruct (replace_list_span_once t)
    as [[-> _]|(pre & body & post & Ht & -> & _)]; [reflexivity|].
  rewrite Ht, !count_lf_app. cbn. lia.
Qed.

Lemma bullet_line_absent (b : code_unit) (s : jstring) :
  b = DASH \/ b = STAR -> no_bullet_lines s ->
  replace (bullet_line b) s = s.
Proof.
  intros Hb Hno. apply replace_loop_id. intros pre post ->.
  unfold bullet_line.
  destruct (at_line_start (prev_after None pre)) eqn:Hp; [|reflexivity].
  destruct (starts_with [b; SP] post) eqn:E; [|reflexivity].
  apply starts_with_inv in E as [post' ->].
  destruct (Hno pre b post' eq_refl Hp) as [Hd Hs].
  destruct Hb; contradiction.
Qed.

(** A text without dash and star has no bulleted line. *)
Lemma no_bullet_chars (s : jstring) :
  ~ In DASH s -> ~ In STAR s -> no_bullet_lines s.
Proof.
  intros Hd Hs pre b post -> _.
  split; intros ->; [apply Hd|apply Hs]; apply in_or_app; right; now left.
Qed.

Lemma not_In_existsb (c : code_unit) (s : jstring) :
  existsb (N.eqb c) s = false -> ~ In c s.
Proof.
  intros H Hin. assert (E : existsb (N.eqb c) s = true).
  { apply existsb_exists. exists c. split; [exact Hin|apply N.eqb_refl]. }
  congruence.
Qed.

Lemma bulletize_absent (s : jstring) : no_bullet_lines s -> bulletize s = s.
Proof.
  intros H. unfold bulletize.
  rewrite (bullet_line_absent DASH) by (auto || exact H).
  apply bullet_line_absent; auto.
Qed.

(** A text from an opening tag to a closing tag goes into the container as
    a whole. *)
Lemma list_span_whole (body : jstring) :
  replace list_span (OPEN_LI ++ body ++ CLOSE_LI)
  = OPEN_UL ++ OPEN_LI ++ body ++ CLOSE_LI ++ CLOSE_UL.
Proof.
  set (t := OPEN_LI ++ body ++ CLOSE_LI).
  assert (Ho : occurs_at OPEN_LI t 0).
  { exists [], (body ++ CLOSE_LI). split; reflexivity. }
  assert (Hc : occurs_at CLOSE_LI t (4 + length body)).
  { exists (OPEN_LI ++ body), []. split.
    - unfold t. now rewrite app_nil_r, <- app_assoc.
    - rewrite length_app. reflexivity. }
  destruct (replace_list_span_once t)
    as [[_ Hnone]|(pre & b' & post & Ht & -> & Hfirst & Hlast)].
  - specialize (Hnone _ _ Ho Hc). lia.
  - destruct Hfirst as (_ & _ & Hbefore).
    assert (Hpre : length pre = 0).
    { destruct (length pre) as [|n] eqn:E; [reflexivity|].
      exfalso. apply (Hbefore 0); [lia|exact Ho]. }
    destruct pre; [|discriminate]. clear Hpre Hbefore.
    specialize (Hlast _ Hc). cbn [length app] in *.
    unfold t in Ht. apply app_inv_head in Ht.
    assert (Hlen : length (body ++ CLOSE_LI) = length (b' ++ CLOSE_LI ++ post))
      by now rewrite Ht.
    rewrite !length_app in Hlen. cbn [length CLOSE_LI lit] in Hlen.
    assert (Hpost : length post = 0) by (simpl in *; lia).
    destruct post; [|discriminate].
    rewrite app_nil_r in Ht. apply app_inv_tail in Ht. subst b'.
    now rewrite app_nil_r.
Qed.

End Bulletize.

(** ** Extraction of the sections *)

Section Sections.

Variable t : jstring.

Lemma slice_to_end (a : nat) : slice t a (length t) = skipn a t.
Proof.
  unfold slice. apply firstn_all2. rewrite length_skipn. lia.
Qed.

Lemma skipn_slice (a b : nat) :
  a <= b -> skipn a t = slice t a b ++ skipn b t.
Proof.
  intros H. unfold slice.
  replace (skipn b t) with (skipn (b - a) (skipn a t)).
  - symmetry. apply firstn_skipn.
  - rewrite skipn_skipn. f_equal. lia.
Qed.

Lemma skipn_marker (m : jstring) (i : nat) :
  occurs_at m t i -> skipn i t = m ++ skipn (i + length m) t.
Proof.
  intros (pre & post & -> & <-).
  rewrite skipn_app, skipn_all, Nat.sub_diag. cbn [skipn app].
  replace (length pre + length m) with (0 + length (pre ++ m))
    by (rewrite length_app; lia).
  now rewrite app_assoc, skipn_past.
Qed.

Lemma first_from_later (m : jstring) (p i : nat) :
  first_from m t 0 i -> p <= i -> first_from m t p i.
Proof.
  intros (_ & Ho & Hb) Hp. split; [exact Hp|]. split; [exact Ho|].
  intros k Hk. apply Hb. lia.
Qed.

(** A section between two markers whose first occurrences do not overlap. *)
Lemma extractSection_between (sm em : jstring) (i j : nat) :
  first_from sm t 0 i -> first_from em t 0 j -> em <> [] ->
  i + length sm <= j ->
  extractSection (JStr t) sm (Some em)
  = Normal (trim (slice t (i + length sm) j)).
Proof.
  intros Hs He Hne Hij.
  destruct (extractSection_found t sm (Some em) i Hs) as (e & Hend & _ & ->).
  destruct em as [|c m]; [congruence|]. cbn [section_end] in Hend.
  pose proof (first_from_later _ _ _ He Hij) as He'.
  destruct Hend as [Hf|[Habs _]].
  - now rewrite (first_from_unique _ _ _ _ _ Hf He').
  - exfalso. destruct He as (_ & Ho & _). exact (Habs j Hij Ho).
Qed.

Lemma extractSection_to_end (sm : jstring) (i : nat) :
  first_from sm t 0 i ->
  extractSection (JStr t) sm None = Normal (trim (skipn (i + length sm) t)).
Proof.
  intros Hs.
  destruct (extractSection_found t sm None i Hs) as (e & Hend & _ & ->).
  cbn [section_end] in Hend. subst e. now rewrite slice_to_end.
Qed.

End Sections.

(** ** The claims on [extractSection] *)

(** C1 (as the code has it).  [extractSection] looks for the first
    occurrence of the start marker, case and all.  Without one it returns the
    sentinel.  With one, at index [i], the content starts right behind the
    marker and ends at the first occurrence of the end marker at or behind
    that offset, or at the end of the text when the end marker is [null], is
    the empty string, or does not occur from that offset on; the content is
    returned without the white space at its two ends.  With the marker
    [RECOMMENDATIONS] and [null] the result is everything behind the marker,
    trimmed. *)
Theorem extractSection_contract (t startMarker : jstring)
    (endMarker : option jstring) :
  ((absent_from startMarker t 0 /\
    extractSection (JStr t) startMarker endMarker = Normal sentinel)
   \/
   (exists i e r,
      first_from startMarker t 0 i /\
      section_end t endMarker (i + length startMarker) e /\
      i + length startMarker <= e <= length t /\
      trim_of (slice t (i + length startMarker) e) r /\
      extractSection (JStr t) startMarker endMarker = Normal r))
  /\
  (forall i, first_from RECOMMENDATIONS t 0 i ->
     extractSection (JStr t) RECOMMENDATIONS None
     = Normal (trim (skipn (i + length RECOMMENDATIONS) t))).
Proof.
  split.
  - destruct (indexOf t startMarker 0) as [i|] eqn:E.
    + right. apply indexOf_Some in E. cbn [Nat.min] in E.
      destruct (extractSection_found t startMarker endMarker i E)
        as (e & Hend & Hle & Hr).
      exists i, e, (trim (slice t (i + length startMarker) e)).
      repeat split; try assumption; try apply E; try apply Hle.
      apply trim_spec.
    + left. apply indexOf_None in E. cbn [Nat.min] in E.
      split; [exact E|]. now apply extractSection_absent.
  - intros i Hi. now apply extractSection_to_end.
Qed.

Lemma extractSection_contract_witness :
  extractSection (JStr four_sections) RECOMMENDATIONS None = Normal (lit "d").
Proof.
  exact (proj2 (extractSection_contract four_sections RECOMMENDATIONS None) 69
           (indexOf_Some four_sections RECOMMENDATIONS 0 69 eq_refl)).
Defined.

(** C1 as the specification words it fails for the empty string as end
    marker: the empty string occurs at the content offset, so the stated
    section would end there and be empty, but the code takes the empty string
    for no end marker and returns the rest of the text. *)
Lemma extractSection_empty_end_marker :
  let t := lit "Xabc" in
  section_end_stated t (Some []) 1 1 /\
  (forall e, section_end_stated t (Some []) 1 e -> e = 1) /\
  trim (slice t 1 1) = [] /\
  extractSection (JStr t) (lit "X") (Some []) = Normal (lit "abc").
Proof.
  assert (H : first_from [] (lit "Xabc") 1 1).
  { split; [lia|]. split; [|intros k Hk; lia].
    exists (lit "X"), (lit "abc"). split; reflexivity. }
  cbv zeta. split; [left; exact H|]. split; [|split; reflexivity].
  intros e [He|[Habs _]].
  - eapply first_from_unique; eassumption.
  - exfalso. apply (Habs 1); [lia|apply H].
Qed.

(** C3 (as the code has it).  When the first occurrences of the four
    markers follow each other without overlapping, the text is what stands
    before the first marker, then each marker followed by the content of its
    section; each extracted section is the content of its section without the
    white space at its two ends.  The text before the first marker belongs to
    no section. *)
Theorem sections_reconstruct (t : jstring) (i1 i2 i3 i4 : nat) :
  first_from KEY_IMPORTANT_POINTS t 0 i1 ->
  first_from SUSPICIOUS_ELEMENTS t 0 i2 ->
  first_from RISK_ASSESSMENT t 0 i3 ->
  first_from RECOMMENDATIONS t 0 i4 ->
  i1 + length KEY_IMPORTANT_POINTS <= i2 ->
  i2 + length SUSPICIOUS_ELEMENTS <= i3 ->
  i3 + length RISK_ASSESSMENT <= i4 ->
  exists c1 c2 c3 c4 s1 s2 s3 s4,
    t = firstn i1 t ++ KEY_IMPORTANT_POINTS ++ c1 ++ SUSPICIOUS_ELEMENTS ++ c2
        ++ RISK_ASSESSMENT ++ c3 ++ RECOMMENDATIONS ++ c4 /\
    trim_of c1 s1 /\ trim_of c2 s2 /\ trim_of c3 s3 /\ trim_of c4 s4 /\
    extractSection (JStr t) KEY_IMPORTANT_POINTS (Some SUSPICIOUS_ELEMENTS)
    = Normal s1 /\
    extractSection (JStr t) SUSPICIOUS_ELEMENTS (Some RISK_ASSESSMENT)
    = Normal s2 /\
    extractSection (JStr t) RISK_ASSESSMENT (Some RECOMMENDATIONS)
    = Normal s3 /\
    extractSection (JStr t) RECOMMENDATIONS None = Normal s4.
Proof.
  intros H1 H2 H3 H4 L1 L2 L3.
  set (c1 := slice t (i1 + length KEY_IMPORTANT_POINTS) i2).
  set (c2 := slice t (i2 + length SUSPICIOUS_ELEMENTS) i3).
  set (c3 := slice t (i3 + length RISK_ASSESSMENT) i4).
  set (c4 := skipn (i4 + length RECOMMENDATIONS) t).
  exists c1, c2, c3, c4, (trim c1), (trim c2), (trim c3), (trim c4).
  split; [|repeat split; try apply trim_spec].
  - rewrite <- (firstn_skipn i1 t) at 1. f_equal.
    rewrite (skipn_marker t _ _ (proj1 (proj2 H1))). f_equal.
    rewrite (skipn_slice t _ i2 L1). fold c1. f_equal.
    rewrite (skipn_marker t _ _ (proj1 (proj2 H2))). f_equal.
    rewrite (skipn_slice t _ i3 L2). fold c2. f_equal.
    rewrite (skipn_marker t _ _ (proj1 (proj2 H3))). f_equal.
    rewrite (skipn_slice t _ i4 L3). fold c3. f_equal.
    now rewrite (skipn_marker t _ _ (proj1 (proj2 H4))).
  - apply extractSection_between; try assumption. discriminate.
  - apply extractSection_between; try assumption. discriminate.
  - apply extractSection_between; try assumption. discriminate.
  - now apply extractSection_to_end.
Qed.

Lemma sections_reconstruct_witness :
  exists c1 c2 c3 c4 s1 s2 s3 s4,
    four_sections
    = firstn 6 four_sections ++ KEY_IMPORTANT_POINTS ++ c1
      ++ SUSPICIOUS_ELEMENTS ++ c2 ++ RISK_ASSESSMENT ++ c3
      ++ RECOMMENDATIONS ++ c4 /\
    trim_of c1 s1 /\ trim_of c2 s2 /\ trim_of c3 s3 /\ trim_of c4 s4 /\
    extractSection (JStr four_sections) KEY_IMPORTANT_POINTS
      (Some SUSPICIOUS_ELEMENTS) = Normal s1 /\
    extractSection (JStr four_sections) SUSPICIOUS_ELEMENTS
      (Some RISK_ASSESSMENT) = Normal s2 /\
    extractSection (JStr four_sections) RISK_ASSESSMENT
      (Some RECOMMENDATIONS) = Normal s3 /\
    extractSection (JStr four_sections) RECOMMENDATIONS None = Normal s4.
Proof.
  apply (sections_reconstruct four_sections 6 29 51 69).
  - exact (indexOf_Some four_sections KEY_IMPORTANT_POINTS 0 6 eq_refl).
  - exact (indexOf_Some four_sections SUSPICIOUS_ELEMENTS 0 29 eq_refl).
  - exact (indexOf_Some four_sections RISK_ASSESSMENT 0 51 eq_refl).
  - exact (indexOf_Some four_sections RECOMMENDATIONS 0 69 eq_refl).
  - vm_compute. lia.
  - vm_compute. lia.
  - vm_compute. lia.
Defined.

(** C3 as the specification words it fails when something stands before
    the first marker: the four markers are there in ascending positions and
    the sections are found, but markers, sections and white space alone do
    not give the text back, which starts with [Intro]. *)
Lemma sections_miss_the_preamble :
  first_from KEY_IMPORTANT_POINTS four_sections 0 6 /\
  first_from SUSPICIOUS_ELEMENTS four_sections 0 29 /\
  first_from RISK_ASSESSMENT four_sections 0 51 /\
  first_from RECOMMENDATIONS four_sections 0 69 /\
  extractSection (JStr four_sections) KEY_IMPORTANT_POINTS
    (Some SUSPICIOUS_ELEMENTS) = Normal (lit "a") /\
  extractSection (JStr four_sections) SUSPICIOUS_ELEMENTS
    (Some RISK_ASSESSMENT) = Normal (lit "b") /\
  extractSection (JStr four_sections) RISK_ASSESSMENT
    (Some RECOMMENDATIONS) = Normal (lit "c") /\
  extractSection (JStr four_sections) RECOMMENDATIONS None = Normal (lit "d") /\
  forall c1 c2 c3 c4,
    four_sections
    <> KEY_IMPORTANT_POINTS ++ c1 ++ SUSPICIOUS_ELEMENTS ++ c2
       ++ RISK_ASSESSMENT ++ c3 ++ RECOMMENDATIONS ++ c4.
Proof.
  split; [exact (indexOf_Some four_sections KEY_IMPORTANT_POINTS 0 6 eq_refl)|].
  split; [exact (indexOf_Some four_sections SUSPICIOUS_ELEMENTS 0 29 eq_refl)|].
  split; [exact (indexOf_Some four_sections RISK_ASSESSMENT 0 51 eq_refl)|].
  split; [exact (indexOf_Some four_sections RECOMMENDATIONS 0 69 eq_refl)|].
  repeat (split; [vm_compute; reflexivity|]).
  intros c1 c2 c3 c4 H. discriminate H.
Qed.

(** The first two markers can overlap in one code unit; then the first
    section runs over the second marker to the end of the text. *)
Example sections_overlap :
  let t := lit "KEY IMPORTANT POINTSUSPICIOUS ELEMENTS x" in
  indexOf t KEY_IMPORTANT_POINTS 0 = Some 0 /\
  indexOf t SUSPICIOUS_ELEMENTS 0 = Some 19 /\
  extractSection (JStr t) KEY_IMPORTANT_POINTS (Some SUSPICIOUS_ELEMENTS)
  = Normal (lit "USPICIOUS ELEMENTS x").
Proof. vm_compute. repeat split. Qed.

(** ** The claims on [formatText] *)

Section Formatting.

Lemma formatText_nonempty (c : code_unit) (s : jstring) :
  formatText (JStr (c :: s))
  = Normal (flat_map br (replace list_span (bulletize (c :: s)))).
Proof.
  unfold formatText. cbn [truthy negb as_receiver bind].
  unfold replace at 1. now rewrite replace_newline.
Qed.

Lemma flat_map_br_line (l : jstring) : one_line l -> flat_map br l = l.
Proof.
  induction 1 as [|c l Hc _ IH]; [reflexivity|].
  cbn [flat_map]. rewrite IH. unfold br.
  replace (c =? LF)%N with false; [reflexivity|].
  symmetry. apply N.eqb_neq. intros ->. discriminate.
Qed.

Lemma flat_map_br_no_lf (s : jstring) : ~ In LF s -> flat_map br s = s.
Proof.
  induction s as [|c s IH]; intros H; [reflexivity|].
  cbn [flat_map]. rewrite IH by (intros Hin; apply H; now right).
  unfold br. replace (c =? LF)%N with false; [reflexivity|].
  symmetry. apply N.eqb_neq. intros ->. apply H. now left.
Qed.

Lemma count_lf_br (s : jstring) : count_lf (flat_map br s) = 0.
Proof.
  induction s as [|c s IH]; [reflexivity|].
  cbn [flat_map]. rewrite count_lf_app, IH. unfold br.
  destruct (c =? LF)%N eqn:E; [reflexivity|].
  unfold count_lf. cbn [filter]. now rewrite E.
Qed.

Lemma flat_map_br_nl (a b : jstring) :
  flat_map br (a ++ LF :: b) = flat_map br a ++ lit "<br>" ++ flat_map br b.
Proof. rewrite flat_map_app. reflexivity. Qed.

Lemma list_item_bullet (l : jstring) :
  is_bullet_line l = true -> list_item l = OPEN_LI ++ skipn 2 l ++ CLOSE_LI.
Proof. unfold is_bullet_line, list_item. now intros ->. Qed.

(** The last line of a text, seen from the text before it. *)
Lemma bulletize_snoc (a l : jstring) (t : code_unit) :
  is_line_terminator t = true -> one_line l ->
  bulletize (a ++ t :: l) = bulletize a ++ t :: list_item l.
Proof.
  intros Ht Hl. induction a as [l0 H0|l0 t0 rest H0 Ht0 IH] using lines_ind.
  - rewrite bulletize_line by assumption.
    now rewrite !bulletize_last by assumption.
  - rewrite <- app_assoc. cbn [app].
    rewrite (bulletize_line l0 (rest ++ t :: l) t0) by assumption.
    rewrite (bulletize_line l0 rest t0) by assumption.
    rewrite IH, <- app_assoc. reflexivity.
Qed.

Lemma list_span_framed (t body : jstring) :
  t = OPEN_LI ++ body ++ CLOSE_LI ->
  replace list_span t = OPEN_UL ++ t ++ CLOSE_UL.
Proof.
  intros ->. rewrite list_span_whole. now rewrite <- !app_assoc.
Qed.

Lemma flat_map_br_container (t : jstring) :
  flat_map br (OPEN_UL ++ t ++ CLOSE_UL) = OPEN_UL ++ flat_map br t ++ CLOSE_UL.
Proof. now rewrite !flat_map_app. Qed.

(** Between a first and a last bulleted line everything goes into the one
    container. *)
Lemma formatText_between_bullets (l1 mid l2 : jstring) :
  one_line l1 -> one_line l2 ->
  is_bullet_line l1 = true -> is_bullet_line l2 = true ->
  formatText (JStr (nl l1 (nl mid l2)))
  = Normal (OPEN_UL ++ list_item l1 ++ lit "<br>" ++ flat_map br (bulletize mid)
            ++ lit "<br>" ++ list_item l2 ++ CLOSE_UL).
Proof.
  intros H1 H2 B1 B2. unfold nl.
  destruct l1 as [|c l1]; [discriminate|]. cbn [app].
  rewrite formatText_nonempty. f_equal.
  change (c :: l1 ++ LF :: mid ++ LF :: l2)
    with ((c :: l1) ++ LF :: mid ++ LF :: l2).
  rewrite bulletize_line, bulletize_snoc by (assumption || reflexivity).
  pose proof (one_line_list_item _ H1) as O1.
  pose proof (one_line_list_item _ H2) as O2.
  rewrite (list_span_framed _
             (skipn 2 (c :: l1) ++ CLOSE_LI ++ LF :: bulletize mid
              ++ LF :: OPEN_LI ++ skipn 2 l2)).
  - rewrite flat_map_br_container, !flat_map_br_nl.
    rewrite (flat_map_br_line _ O1), (flat_map_br_line _ O2).
    rewrite <- !app_assoc. reflexivity.
  - rewrite (list_item_bullet _ B1), (list_item_bullet _ B2).
    repeat (rewrite <- ?app_assoc; cbn [app]). reflexivity.
Qed.

(** Two bulleted lines, one behind the other. *)
Lemma formatText_adjacent_bullets (l1 l2 : jstring) :
  one_line l1 -> one_line l2 ->
  is_bullet_line l1 = true -> is_bullet_line l2 = true ->
  formatText (JStr (nl l1 l2))
  = Normal (OPEN_UL ++ list_item l1 ++ lit "<br>" ++ list_item l2 ++ CLOSE_UL).
Proof.
  intros H1 H2 B1 B2. unfold nl.
  destruct l1 as [|c l1]; [discriminate|]. cbn [app].
  rewrite formatText_nonempty. f_equal.
  change (c :: l1 ++ LF :: l2) with ((c :: l1) ++ LF :: l2).
  rewrite bulletize_line, bulletize_last by (assumption || reflexivity).
  pose proof (one_line_list_item _ H1) as O1.
  pose proof (one_line_list_item _ H2) as O2.
  rewrite (list_span_framed _
             (skipn 2 (c :: l1) ++ CLOSE_LI ++ LF :: OPEN_LI ++ skipn 2 l2)).
  - rewrite flat_map_br_container, flat_map_br_nl.
    rewrite (flat_map_br_line _ O1), (flat_map_br_line _ O2).
    rewrite <- !app_assoc. reflexivity.
  - rewrite (list_item_bullet _ B1), (list_item_bullet _ B2).
    repeat (rewrite <- ?app_assoc; cbn [app]). reflexivity.
Qed.

Lemma list_span_absent (s : jstring) :
  (forall i, ~ occurs_at OPEN_LI s i) -> replace list_span s = s.
Proof.
  intros H.
  destruct (replace_list_span_once s)
    as [[-> _]|(pre & body & post & _ & _ & (_ & Ho & _) & _)]; [reflexivity|].
  exfalso. exact (H _ Ho).
Qed.

End Formatting.

(** C2 (as the code has it).  After the bullet patterns the text gets at
    most one list container: it opens in front of the first opening tag of a
    list item and closes behind the last closing tag, and all that stands
    between them is inside, also lines without a bullet that separate two
    runs of bulleted lines.  [formatText] of the lines [- a], [- b] and
    [plain] is one list block with the two items, a line break between them,
    and behind the block a line break and the plain line. *)
Theorem formatText_one_container :
  (forall c s,
     exists out,
       wrapped_once (bulletize (c :: s)) out /\
       formatText (JStr (c :: s)) = Normal (flat_map br out))
  /\
  (forall l1 mid l2,
     one_line l1 -> one_line l2 ->
     is_bullet_line l1 = true -> is_bullet_line l2 = true ->
     formatText (JStr (nl l1 (nl mid l2)))
     = Normal (OPEN_UL ++ list_item l1 ++ lit "<br>"
               ++ flat_map br (bulletize mid)
               ++ lit "<br>" ++ list_item l2 ++ CLOSE_UL))
  /\
  formatText (JStr (nl (lit "- a") (nl (lit "- b") (lit "plain"))))
  = Normal (lit "<ul><li>a</li><br><li>b</li></ul><br>plain").
Proof.
  split; [|split].
  - intros c s. exists (replace list_span (bulletize (c :: s))).
    split; [apply replace_list_span_once|apply formatText_nonempty].
  - exact formatText_between_bullets.
  - vm_compute. reflexivity.
Qed.

Lemma formatText_one_container_witness :
  formatText (JStr (nl (lit "- a") (nl (nl (lit "plain") (lit "text")) (lit "* b"))))
  = Normal (lit "<ul><li>a</li><br>plain<br>text<br><li>b</li></ul>").
Proof.
  refine (proj1 (proj2 formatText_one_container)
            (lit "- a") (nl (lit "plain") (lit "text")) (lit "* b") _ _ _ _);
    try reflexivity; repeat constructor.
Defined.

(** C2 as the specification words it fails for two runs of bulleted lines
    with a plain line between them: there are two runs, but the output has
    one container, and the plain line is inside it. *)
Lemma formatText_merges_runs :
  let s := nl (lit "- a") (nl (lit "plain") (lit "- b")) in
  let out := lit "<ul><li>a</li><br>plain<br><li>b</li></ul>" in
  bullet_runs s = 2 /\
  formatText (JStr s) = Normal out /\
  count_matches OPEN_UL out = 1 /\
  count_matches CLOSE_UL out = 1.
Proof. vm_compute. repeat split. Qed.

(** C4 (as the code has it).  Line by line, a line that begins with a
    dash and a space or with a star and a space becomes a list item that
    holds the rest of the line, and every other line stays as it is; the line
    terminators stay where they are.  The last pattern then replaces every
    line feed of the text by a line break marker, also the line feeds between
    two list items: none of them is taken away before. *)
Theorem formatText_lines_and_breaks :
  (forall l, one_line l -> bulletize l = list_item l)
  /\
  (forall l t rest,
     one_line l -> is_line_terminator t = true ->
     bulletize (l ++ t :: rest) = list_item l ++ t :: bulletize rest)
  /\
  (forall c s,
     let t := replace list_span (bulletize (c :: s)) in
     formatText (JStr (c :: s)) = Normal (flat_map br t) /\
     count_lf t = count_lf (c :: s) /\
     count_lf (flat_map br t) = 0)
  /\
  (forall l1 l2,
     one_line l1 -> one_line l2 ->
     is_bullet_line l1 = true -> is_bullet_line l2 = true ->
     formatText (JStr (nl l1 l2))
     = Normal (OPEN_UL ++ list_item l1 ++ lit "<br>" ++ list_item l2
               ++ CLOSE_UL)).
Proof.
  split; [exact bulletize_last|].
  split; [intros l t rest; apply bulletize_line|].
  split; [|exact formatText_adjacent_bullets].
  intros c s t. split; [apply formatText_nonempty|]. split.
  - unfold t. now rewrite count_lf_list_span, count_lf_bulletize.
  - apply count_lf_br.
Qed.

Lemma formatText_lines_and_breaks_witness :
  bulletize (nl (lit "* first") (lit "second"))
  = lit "<li>first</li>" ++ LF :: bulletize (lit "second").
Proof.
  refine (proj1 (proj2 formatText_lines_and_breaks)
            (lit "* first") LF (lit "second") _ _);
    try reflexivity; repeat constructor.
Defined.

(** C4 as the specification words it fails for two bulleted lines: the
    line feed between the two list items comes back as a line break marker
    inside the list. *)
Lemma formatText_break_between_items :
  let out := lit "<ul><li>a</li><br><li>b</li></ul>" in
  formatText (JStr (nl (lit "- a") (lit "- b"))) = Normal out /\
  contains (lit "</li><br><li>") out = true.
Proof. vm_compute. split; reflexivity. Qed.

(** C5.  [formatText] returns the sentinel for the empty string, for [null]
    (and [undefined]) and for the sentinel itself. *)
Theorem formatText_sentinel :
  formatText (JStr []) = Normal sentinel /\
  formatText JNull = Normal sentinel /\
  formatText JUndefined = Normal sentinel /\
  formatText (JStr sentinel) = Normal sentinel.
Proof. repeat split; vm_compute; reflexivity. Qed.

(** C6.  On strings [extractSection] and [formatText] end normally with a
    string, whatever the text and the markers are.  A text without the start
    marker gives the sentinel; a text without bulleted lines, list tags and
    line feeds is returned as it is, and the empty text gives the
    sentinel. *)
Theorem extract_and_format_never_throw (text startMarker : jstring)
    (endMarker : option jstring) :
  (exists r, extractSection (JStr text) startMarker endMarker = Normal r) /\
  (exists r, formatText (JStr text) = Normal r) /\
  (absent_from startMarker text 0 ->
   extractSection (JStr text) startMarker endMarker = Normal sentinel) /\
  (text <> [] -> no_bullet_lines text -> ~ In LF text ->
   (forall i, ~ occurs_at OPEN_LI text i) ->
   formatText (JStr text) = Normal text) /\
  formatText (JStr []) = Normal sentinel.
Proof.
  split; [|split; [|split; [|split]]].
  - unfold extractSection. cbn [as_receiver bind].
    destruct (indexOf text startMarker 0); eexists; reflexivity.
  - destruct text as [|c s]; [exists sentinel; reflexivity|].
    rewrite formatText_nonempty. eexists; reflexivity.
  - apply extractSection_absent.
  - intros Hne Hb Hlf Hli. destruct text as [|c s]; [congruence|].
    rewrite formatText_nonempty, bulletize_absent by exact Hb.
    rewrite list_span_absent by exact Hli.
    now rewrite flat_map_br_no_lf.
  - reflexivity.
Qed.

Lemma extract_and_format_never_throw_witness :
  formatText (JStr (lit "Low risk")) = Normal (lit "Low risk").
Proof.
  refine (proj1 (proj2 (proj2 (proj2
            (extract_and_format_never_throw (lit "Low risk") [] None)))) _ _ _ _).
  - discriminate.
  - apply no_bullet_chars; apply not_In_existsb; reflexivity.
  - apply not_In_existsb. reflexivity.
  - intros i. exact (indexOf_None (lit "Low risk") OPEN_LI 0 eq_refl i (Nat.le_0_l i)).
Defined.

(** What the functions do throw on: a text that is not a string. *)
Example extractSection_undefined :
  exists e, extractSection JUndefined KEY_IMPORTANT_POINTS None = Throw e.
Proof. eexists. reflexivity. Qed.

(** C7 (as the code has it).  Formatting loses no character of a section
    without bulleted lines: the result is the section with every line feed
    replaced by the line break marker and with at most one list container
    added, which is there only when the section itself holds list tags.
    Extraction keeps what stands between the start marker and the end of the
    section but for the white space at the two ends.  What stands outside the
    sections is not rendered: for a text with none of the four markers every
    section is the sentinel. *)
Theorem rendering_keeps_section_text :
  (forall c s,
     no_bullet_lines (c :: s) ->
     exists out,
       wrapped_once (c :: s) out /\
       formatText (JStr (c :: s)) = Normal (flat_map br out))
  /\
  (forall c s,
     no_bullet_lines (c :: s) -> (forall i, ~ occurs_at OPEN_LI (c :: s) i) ->
     formatText (JStr (c :: s)) = Normal (flat_map br (c :: s)))
  /\
  (forall t startMarker endMarker i,
     first_from startMarker t 0 i ->
     exists e r,
       i + length startMarker <= e <= length t /\
       trim_of (slice t (i + length startMarker) e) r /\
       extractSection (JStr t) startMarker endMarker = Normal r)
  /\
  (forall now o t,
     string_member "analysis" o = JStr t ->
     absent_from KEY_IMPORTANT_POINTS t 0 ->
     absent_from SUSPICIOUS_ELEMENTS t 0 ->
     absent_from RISK_ASSESSMENT t 0 ->
     absent_from RECOMMENDATIONS t 0 ->
     displayResults now o
     = Normal (mkRendered sentinel sentinel sentinel sentinel now
                          (string_member "fileName" o))).
Proof.
  split; [|split; [|split]].
  - intros c s Hb. exists (replace list_span (c :: s)).
    split; [apply replace_list_span_once|].
    now rewrite formatText_nonempty, bulletize_absent.
  - intros c s Hb Hli.
    now rewrite formatText_nonempty, bulletize_absent, list_span_absent.
  - intros t sm em i Hi.
    destruct (extractSection_found t sm em i Hi) as (e & _ & Hle & Hr).
    exists e, (trim (slice t (i + length sm) e)).
    split; [exact Hle|]. split; [apply trim_spec|exact Hr].
  - intros now o t Ha H1 H2 H3 H4. unfold displayResults. rewrite Ha.
    rewrite !extractSection_absent by assumption.
    reflexivity.
Qed.

Lemma rendering_keeps_section_text_witness :
  formatText (JStr (nl (lit ": Low") (lit "no open points")))
  = Normal (lit ": Low<br>no open points").
Proof.
  refine (proj1 (proj2 rendering_keeps_section_text) 58%N _ _ _).
  - apply no_bullet_chars; apply not_In_existsb; reflexivity.
  - intros i.
    exact (indexOf_None (nl (lit ": Low") (lit "no open points")) OPEN_LI 0
             eq_refl i (Nat.le_0_l i)).
Defined.

(** C7 as the specification words it fails for a text without markers:
    every section is the sentinel, and the capital L of the text is nowhere
    in what is rendered. *)
Lemma unmarked_text_is_not_rendered :
  let t := lit "Low risk" in
  let o := [ ("analysis", JsonString t);
             ("fileName", JsonString (lit "a.pdf"));
             ("success", JsonBool true) ]%string in
  let r := mkRendered sentinel sentinel sentinel sentinel (lit "1/1/2026")
                      (JStr (lit "a.pdf")) in
  indexOf t KEY_IMPORTANT_POINTS 0 = None /\
  indexOf t SUSPICIOUS_ELEMENTS 0 = None /\
  indexOf t RISK_ASSESSMENT 0 = None /\
  indexOf t RECOMMENDATIONS 0 = None /\
  bullet_runs t = 0 /\
  displayResults (lit "1/1/2026") o = Normal r /\
  is_white_space 76%N = false /\
  existsb (N.eqb 76%N) t = true /\
  existsb (N.eqb 76%N) (rendered_text r) = false.
Proof. vm_compute. repeat split. Qed.

(** ** The claims on the server *)

Lemma analyzeLegalDocument_result (w : World) (filePath originalName : jstring) :
  (exists analysis t,
     analyzeLegalDocument w filePath originalName
     = (Normal [ ("analysis", JsonString analysis);
                 ("fileName", JsonString originalName);
                 ("fileType", JsonString (toLowerCase w (extname w originalName)));
                 ("timestamp", JsonString (toISOString w));
                 ("success", JsonBool true) ]%string, t)
     /\ responses t = [])
  \/
  (exists e t,
     analyzeLegalDocument w filePath originalName
     = (Throw (Error (lit "Analysis failed: " ++ message_of e)), t)
     /\ responses t = []).
Proof.
  unfold analyzeLegalDocument, generate, try_catch, ebind, lift, emit, throw, ret.
  destruct (readFileSync w filePath) as [buf|e]; [|right; eauto].
  destruct (jeqb (toLowerCase w (extname w originalName)) (lit ".pdf")).
  - destruct (generateContent w prompt (lit "application/pdf") (base64 w buf));
      [left|right]; eauto.
  - destruct (existsb _ _).
    + destruct (generateContent w prompt _ (base64 w buf)); [left|right]; eauto.
    + right. eauto.
Qed.

(** C8 (as the code has it).  The handler sends one response.  On success
    it is the object with the members [analysis], [fileName], [fileType],
    [timestamp] and [success], the text of the model under the name
    [analysis], which is the name the client reads; there is no member
    [analysisText].  Every other response of the handler and every response
    of the error middleware has a status 400 or 500 and the body of the
    members [success], which is [false], and [error]. *)
Theorem analyze_response_shape (w : World) (file : option File) :
  (exists status body,
     responses (snd (analyze_handler w file)) = [(status, body)] /\
     ((status = 200%N /\
       exists f analysis,
         file = Some f /\
         body = [ ("analysis", JsonString analysis);
                  ("fileName", JsonString (originalname f));
                  ("fileType",
                   JsonString (toLowerCase w (extname w (originalname f))));
                  ("timestamp", JsonString (toISOString w));
                  ("success", JsonBool true) ]%string /\
         member "analysisText" body = None /\
         string_member "analysis" body = JStr analysis)
      \/
      ((status = 400%N \/ status = 500%N) /\
       exists message, body = failure message)))
  /\
  (forall error,
     exists status message,
       error_middleware error = (Normal tt, [Send status (failure message)]) /\
       (status = 400%N \/ status = 500%N)).
Proof.
  split.
  - unfold analyze_handler. destruct file as [f|].
    + destruct (truthy (GEMINI_API_KEY w)); cbn [negb].
      * destruct (analyzeLegalDocument_result w (path f) (originalname f))
          as [(a & t & -> & Ht)|(e & t & -> & Ht)].
        -- exists 200%N. eexists. split.
           ++ cbn. unfold responses in Ht.
              rewrite flat_map_app, Ht. reflexivity.
           ++ left. split; [reflexivity|]. exists f, a. repeat split.
        -- exists 500%N. eexists. split.
           ++ cbn. unfold responses in Ht.
              rewrite flat_map_app, Ht. reflexivity.
           ++ right. split; [now right|]. eexists. reflexivity.
      * exists 500%N. eexists. split; [reflexivity|].
        right. split; [now right|]. eexists. reflexivity.
    + exists 400%N. eexists. split; [reflexivity|].
      right. split; [now left|]. eexists. reflexivity.
  - intros error. unfold error_middleware, res_status_json, emit.
    destruct error as [m|m|code m]; try (do 2 eexists; split; [reflexivity|now right]).
    destruct (jeqb code LIMIT_FILE_SIZE);
      do 2 eexists; (split; [reflexivity|]); [now left|now right].
Qed.

(** C8 as the specification words it fails on a successful request: the
    body has no member [analysisText]; the text is the member [analysis].
    A body of the stated shape would not do for the client, which reads
    [analysis] and throws when it is missing. *)
Lemma success_body_has_no_analysisText :
  let body := [ ("analysis", JsonString sample_analysis);
                ("fileName", JsonString (lit "contract.pdf"));
                ("fileType", JsonString (lit ".pdf"));
                ("timestamp", JsonString (lit "2026-01-01T00:00:00.000Z"));
                ("success", JsonBool true) ]%string in
  responses (snd (analyze_handler (sample_world (JStr (lit "key")))
                                  (Some contract_pdf)))
  = [(200%N, body)] /\
  member "analysisText" body = None /\
  member "analysis" body = Some (JsonString sample_analysis) /\
  exists e,
    displayResults (lit "1/1/2026")
      [ ("analysisText", JsonString sample_analysis);
        ("fileName", JsonString (lit "contract.pdf"));
        ("success", JsonBool true) ]%string
    = Throw e.
Proof.
  cbv zeta. split; [vm_compute; reflexivity|].
  split; [reflexivity|]. split; [reflexivity|].
  eexists. vm_compute. reflexivity.
Qed.

(** The example of the specification, from the response of the server to
    the page. *)
Example sample_rendering :
  displayResults (lit "1/1/2026")
    [ ("analysis", JsonString sample_analysis);
      ("fileName", JsonString (lit "contract.pdf"));
      ("fileType", JsonString (lit ".pdf"));
      ("timestamp", JsonString (lit "2026-01-01T00:00:00.000Z"));
      ("success", JsonBool true) ]%string
  = Normal (mkRendered
              (lit ":<br><ul><li>Payment due in 30 days</li></ul>")
              (lit ":<br><ul><li>None found</li></ul>")
              (lit ":<br>Low")
              (lit ":<br><ul><li>Review clause 4</li></ul>")
              (lit "1/1/2026")
              (JStr (lit "contract.pdf"))).
Proof. vm_compute. reflexivity. Qed.

Lemma fileFilter_cases (w : World) (p : Part) :
  fileFilter w p = Normal true \/
  fileFilter w p = Throw (Error (lit "Only PDF and image files are allowed!")).
Proof.
  unfold fileFilter. destruct (_ && _); [now left|now right].
Qed.

(** An upload over the limit never gets to the handler with a file. *)
Lemma oversized_upload_fails (w : World) (p : Part) :
  (fileSize < part_size p)%N ->
  exists e, upload_single w (lit "document") (Some p) = Throw e.
Proof.
  intros Hsize. apply N.ltb_lt in Hsize. unfold upload_single.
  destruct (negb _); [eexists; reflexivity|].
  destruct (fileFilter_cases w p) as [-> | ->]; cbn [bind]; [|eexists; reflexivity].
  destruct (store w p); cbn [bind]; [|eexists; reflexivity].
  rewrite Hsize. eexists; reflexivity.
Qed.

Lemma error_middleware_sends_once (e : Exn) :
  exists status message,
    error_middleware e = (Normal tt, [Send status (failure message)]) /\
    (status = 400%N \/ status = 500%N).
Proof.
  unfold error_middleware, res_status_json, emit.
  destruct e as [m|m|code m]; try (do 2 eexists; split; [reflexivity|now right]).
  destruct (jeqb code LIMIT_FILE_SIZE);
    do 2 eexists; (split; [reflexivity|]); [now left|now right].
Qed.

(** C9 (as the code has it).  For a file over the limit the server sends
    one error response and never calls the generative model.  The status is
    400, with the message of the size limit, when the upload middleware ends
    with the code [LIMIT_FILE_SIZE], which it does for a file of the right
    field that passes the type filter and is taken by the storage engine.
    The type filter comes first: a file over the limit that it refuses gets
    the status 500 and the message of the filter. *)
Theorem oversized_upload (w : World) (p : Part) :
  (fileSize < part_size p)%N ->
  model_calls (snd (post_analyze w (Some p))) = [] /\
  (exists status message,
     post_analyze w (Some p) = (Normal tt, [Send status (failure message)]) /\
     (status = 400%N \/ status = 500%N)) /\
  (upload_single w (lit "document") (Some p)
   = Throw (MulterError LIMIT_FILE_SIZE (lit "File too large")) ->
   post_analyze w (Some p)
   = (Normal tt,
      [Send 400 (failure (lit "File too large. Maximum size is 10MB."))])) /\
  (jeqb (part_fieldname p) (lit "document") = true ->
   fileFilter w p = Normal true ->
   (exists stored, store w p = Normal stored) ->
   post_analyze w (Some p)
   = (Normal tt,
      [Send 400 (failure (lit "File too large. Maximum size is 10MB."))])) /\
  (jeqb (part_fieldname p) (lit "document") = true ->
   (exists e, fileFilter w p = Throw e) ->
   post_analyze w (Some p)
   = (Normal tt,
      [Send 500 (failure (lit "Only PDF and image files are allowed!"))])).
Proof.
  intros Hsize.
  destruct (oversized_upload_fails w p Hsize) as [e He].
  destruct (error_middleware_sends_once e) as (status & message & Hm & Hst).
  assert (Hpost : post_analyze w (Some p)
                  = (Normal tt, [Send status (failure message)])).
  { unfold post_analyze. now rewrite He. }
  split; [now rewrite Hpost|].
  split; [now exists status, message|].
  split; [|split].
  - intros Hup. unfold post_analyze. rewrite Hup. reflexivity.
  - intros Hfield Hfilter [stored Hstore].
    unfold post_analyze, upload_single.
    rewrite Hfield, Hfilter. cbn [negb bind]. rewrite Hstore. cbn [bind].
    apply N.ltb_lt in Hsize. rewrite Hsize. reflexivity.
  - intros Hfield [e' Hfilter].
    unfold post_analyze, upload_single. rewrite Hfield. cbn [negb].
    destruct (fileFilter_cases w p) as [H|H]; rewrite H in *; [discriminate|].
    reflexivity.
Qed.

Lemma oversized_upload_witness :
  let w := sample_world (JStr (lit "key")) in
  model_calls (snd (post_analyze w (Some big_pdf))) = [] /\
  (exists status message,
     post_analyze w (Some big_pdf)
     = (Normal tt, [Send status (failure message)]) /\
     (status = 400%N \/ status = 500%N)) /\
  (upload_single w (lit "document") (Some big_pdf)
   = Throw (MulterError LIMIT_FILE_SIZE (lit "File too large")) ->
   post_analyze w (Some big_pdf)
   = (Normal tt,
      [Send 400 (failure (lit "File too large. Maximum size is 10MB."))])) /\
  (jeqb (part_fieldname big_pdf) (lit "document") = true ->
   fileFilter w big_pdf = Normal true ->
   (exists stored, store w big_pdf = Normal stored) ->
   post_analyze w (Some big_pdf)
   = (Normal tt,
      [Send 400 (failure (lit "File too large. Maximum size is 10MB."))])) /\
  (jeqb (part_fieldname big_pdf) (lit "document") = true ->
   (exists e, fileFilter w big_pdf = Throw e) ->
   post_analyze w (Some big_pdf)
   = (Normal tt,
      [Send 500 (failure (lit "Only PDF and image files are allowed!"))])).
Proof.
  apply (oversized_upload (sample_world (JStr (lit "key"))) big_pdf).
  reflexivity.
Defined.

(** C9 as the specification words it fails for a file over the limit that
    the type filter refuses: the response has the status 500. *)
Lemma oversized_text_file_gets_500 :
  (fileSize < part_size big_txt)%N /\
  post_analyze (sample_world (JStr (lit "key"))) (Some big_txt)
  = (Normal tt,
     [Send 500 (failure (lit "Only PDF and image files are allowed!"))]).
Proof. split; [reflexivity|vm_compute; reflexivity]. Qed.

(** The file over the limit that passes the filter, in the sample world. *)
Example oversized_pdf_gets_400 :
  post_analyze (sample_world (JStr (lit "key"))) (Some big_pdf)
  = (Normal tt,
     [Send 400 (failure (lit "File too large. Maximum size is 10MB."))]).
Proof. vm_compute. reflexivity. Qed.

Example filename_of_upload :
  filename (sample_world JUndefined) big_pdf (lit "1767225600000") (lit "42")
  = lit "document-1767225600000-42.pdf".
Proof. reflexivity. Qed.

(** The [destination] callback as it is written throws for every state of
    the disk. *)
Example destination_throws (on_disk : jstring -> bool) :
  exists e, destination on_disk = Throw (TypeError e).
Proof. eexists. reflexivity. Qed.

(** C10.  A request that reaches the handler without a file is answered
    with the status 400 and the error [No file uploaded], and the generative
    model is not called; this holds in every world, also without an API key,
    because the handler looks at the file first: the missing key is reported,
    with the status 500, only for a request that has a file. *)
Theorem missing_file_is_rejected_first (w : World) :
  analyze_handler w None
  = (Normal tt, [Send 400 (failure (lit "No file uploaded"))]) /\
  post_analyze w None
  = (Normal tt, [Send 400 (failure (lit "No file uploaded"))]) /\
  model_calls (snd (analyze_handler w None)) = [] /\
  (forall f,
     truthy (GEMINI_API_KEY w) = false ->
     analyze_handler w (Some f)
     = (Normal tt, [Send 500 (failure (lit "Gemini API key not configured"))])).
Proof.
  repeat split. intros f Hkey. unfold analyze_handler. now rewrite Hkey.
Qed.

Lemma missing_file_is_rejected_first_witness :
  analyze_handler (sample_world JUndefined) (Some contract_pdf)
  = (Normal tt, [Send 500 (failure (lit "Gemini API key not configured"))]).
Proof.
  exact (proj2 (proj2 (proj2
           (missing_file_is_rejected_first (sample_world JUndefined))))
           contract_pdf eq_refl).
Defined.

Example missing_file_without_key :
  post_analyze (sample_world JUndefined) None
  = (Normal tt, [Send 400 (failure (lit "No file uploaded"))]) /\
  analyze_handler (sample_world JUndefined) (Some contract_pdf)
  = (Normal tt, [Send 500 (failure (lit "Gemini API key not configured"))]).
Proof. split; reflexivity. Qed.

(** ** Further properties of the client functions *)

Section MoreFormatting.

Lemma bulletize_join (ls : list jstring) :
  Forall one_line ls ->
  bulletize (join [LF] ls) = join [LF] (map list_item ls).
Proof.
  induction 1 as [|l ls Hl Hls IH]; [reflexivity|].
  destruct ls as [|l' ls]; [now apply bulletize_last|].
  change (join [LF] (l :: l' :: ls)) with (l ++ LF :: join [LF] (l' :: ls)).
  rewrite bulletize_line by (assumption || reflexivity).
  now rewrite IH.
Qed.

Lemma flat_map_br_join (ls : list jstring) :
  Forall one_line ls ->
  flat_map br (join [LF] ls) = join (lit "<br>") ls.
Proof.
  induction 1 as [|l ls Hl Hls IH]; [reflexivity|].
  destruct ls as [|l' ls]; [now apply flat_map_br_line|].
  change (join [LF] (l :: l' :: ls)) with (l ++ LF :: join [LF] (l' :: ls)).
  rewrite flat_map_br_nl, IH, (flat_map_br_line _ Hl). reflexivity.
Qed.

Lemma join_starts (sep l : jstring) (ls : list jstring) :
  exists x, join sep (l :: ls) = l ++ x.
Proof.
  destruct ls as [|l' ls]; [exists []; symmetry; apply app_nil_r|].
  now exists (sep ++ join sep (l' :: ls)).
Qed.

Lemma last_cons (l d : jstring) (ls : list jstring) :
  last (l :: ls) d = last ls l.
Proof.
  revert l d; induction ls as [|l' ls IH]; intros l d; [reflexivity|].
  change (last (l :: l' :: ls) d) with (last (l' :: ls) d).
  now rewrite (IH l' d), (IH l' l).
Qed.

Lemma join_ends (sep l : jstring) (ls : list jstring) :
  exists y, join sep (l :: ls) = y ++ last ls l.
Proof.
  revert l; induction ls as [|l' ls IH]; intros l; [now exists []|].
  destruct (IH l') as [y Hy].
  exists (l ++ sep ++ y).
  change (join sep (l :: l' :: ls)) with (l ++ sep ++ join sep (l' :: ls)).
  rewrite Hy, <- !app_assoc, last_cons. reflexivity.
Qed.

(** A text that begins with an opening tag and ends with a closing tag, the
    two not overlapping, is an opening tag, a body and a closing tag. *)
Lemma framed_by_tags (s x y : jstring) :
  s = OPEN_LI ++ x -> s = y ++ CLOSE_LI -> 9 <= length s ->
  exists body, s = OPEN_LI ++ body ++ CLOSE_LI.
Proof.
  intros Hx Hy Hlen.
  assert (Hyl : length y + 5 = length s).
  { rewrite Hy, length_app. reflexivity. }
  assert (E : skipn (length y) s = CLOSE_LI).
  { rewrite Hy. change (length y) with (0 + length y). apply skipn_past. }
  rewrite Hx in E.
  replace (length y) with (length s - 9 + length OPEN_LI) in E
    by (simpl; lia).
  rewrite skipn_past in E.
  exists (firstn (length s - 9) x).
  rewrite <- E, firstn_skipn. exact Hx.
Qed.

Lemma list_item_ends (l : jstring) :
  is_bullet_line l = true -> exists y, list_item l = y ++ CLOSE_LI.
Proof.
  intros B. rewrite (list_item_bullet _ B).
  exists (OPEN_LI ++ skipn 2 l). now rewrite <- app_assoc.
Qed.

Lemma last_list_item (l : jstring) (ls : list jstring) :
  last (map list_item ls) (list_item l) = list_item (last ls l).
Proof.
  induction ls as [|a ls IH]; [reflexivity|].
  cbn [map]. destruct ls as [|b ls]; [reflexivity|]. exact IH.
Qed.

Lemma join_length_first (sep l : jstring) (ls : list jstring) :
  length l <= length (join sep (l :: ls)).
Proof. destruct (join_starts sep l ls) as [x ->]. rewrite length_app. lia. Qed.

End MoreFormatting.

(** X1.  When the first and the last line of a text are bulleted, the whole
    text becomes one list: the output is the opening container tag, the
    lines with a line break marker between them, bulleted lines as list
    items and the other lines as they are, and the closing container tag. *)
Theorem formatText_first_and_last_bullet (l : jstring) (ls : list jstring) :
  Forall one_line (l :: ls) ->
  is_bullet_line l = true ->
  is_bullet_line (last ls l) = true ->
  formatText (JStr (join [LF] (l :: ls)))
  = Normal (OPEN_UL ++ join (lit "<br>") (map list_item (l :: ls)) ++ CLOSE_UL).
Proof.
  intros Hls B1 Bn.
  assert (Hne : exists c s, join [LF] (l :: ls) = c :: s).
  { destruct l as [|c l]; [discriminate|].
    destruct (join_starts [LF] (c :: l) ls) as [x ->]. now exists c, (l ++ x). }
  destruct Hne as (c & s & Hcs). rewrite Hcs, formatText_nonempty, <- Hcs.
  rewrite bulletize_join by exact Hls.
  assert (Hitems : Forall one_line (map list_item (l :: ls))).
  { apply Forall_map. eapply Forall_impl; [|exact Hls].
    intros a. apply one_line_list_item. }
  destruct (join_starts [LF] (list_item l) (map list_item ls)) as [x Hx].
  destruct (join_ends [LF] (list_item l) (map list_item ls)) as [y Hy].
  pose proof (join_length_first [LF] (list_item l) (map list_item ls)) as Hlen.
  rewrite last_list_item in Hy.
  destruct (list_item_ends _ Bn) as [y' Hy'].
  change (list_item l :: map list_item ls) with (map list_item (l :: ls)) in *.
  set (t := join [LF] (map list_item (l :: ls))) in *.
  rewrite Hy', app_assoc in Hy.
  rewrite (list_item_bullet _ B1) in Hx, Hlen.
  rewrite <- app_assoc in Hx. rewrite !length_app in Hlen.
  destruct (framed_by_tags _ _ _ Hx Hy) as [body Hbody];
    [simpl in Hlen; lia|].
  rewrite (list_span_framed _ body Hbody), flat_map_br_container.
  unfold t. now rewrite flat_map_br_join.
Qed.

Lemma formatText_first_and_last_bullet_witness :
  formatText (JStr (join [LF] [lit "- a"; lit "plain"; lit "* b"]))
  = Normal (lit "<ul><li>a</li><br>plain<br><li>b</li></ul>").
Proof.
  refine (formatText_first_and_last_bullet (lit "- a") [lit "plain"; lit "* b"]
            _ _ _); try reflexivity.
  repeat constructor.
Defined.

Section MoreExtraction.

Lemma trimStart_snoc (y : jstring) (c : code_unit) :
  is_white_space c = false -> exists y', trimStart (y ++ [c]) = y' ++ [c].
Proof.
  intros Hc. induction y as [|a y [y' IH]]; cbn [app trimStart].
  - rewrite Hc. now exists [].
  - destruct (is_white_space a); [now exists y'|now exists (a :: y)].
Qed.

Lemma trim_keeps_head (c : code_unit) (x : jstring) :
  is_white_space c = false -> exists r, trim (c :: x) = c :: r.
Proof.
  intros Hc. unfold trim, trimEnd. cbn [trimStart]. rewrite Hc.
  cbn [rev]. destruct (trimStart_snoc (rev x) c Hc) as [y' ->].
  exists (rev y'). now rewrite rev_app_distr.
Qed.

Lemma length_slice (t : jstring) (a e : nat) :
  e <= length t -> length (slice t a e) = e - a.
Proof.
  intros He. unfold slice. rewrite length_firstn, length_skipn. lia.
Qed.

Lemma text_around_slice (t : jstring) (a e : nat) :
  a <= e -> t = firstn a t ++ slice t a e ++ skipn e t.
Proof.
  intros Hae. rewrite <- (skipn_slice t a e Hae). symmetry. apply firstn_skipn.
Qed.

End MoreExtraction.

(** X2.  The code unit right behind the start marker, when it is no white
    space and the end marker does not stand there, is the first one of the
    extracted section: the colon behind a section header stays in the
    section. *)
Theorem extractSection_keeps_first_character (t startMarker : jstring)
    (endMarker : option jstring) (i : nat) (c : code_unit) (rest : jstring) :
  first_from startMarker t 0 i ->
  skipn (i + length startMarker) t = c :: rest ->
  is_white_space c = false ->
  (forall m, endMarker = Some m -> m <> [] ->
             ~ occurs_at m t (i + length startMarker)) ->
  exists r, extractSection (JStr t) startMarker endMarker = Normal (c :: r).
Proof.
  intros Hf Hskip Hc Hem.
  destruct (extractSection_found t startMarker endMarker i Hf)
    as (e & Hend & Hle & ->).
  set (cs := i + length startMarker) in *.
  assert (Hlen : cs < length t).
  { assert (H : length (skipn cs t) = S (length rest)) by now rewrite Hskip.
    rewrite length_skipn in H. lia. }
  assert (Hlt : cs < e).
  { destruct endMarker as [[|x m]|]; cbn [section_end] in Hend; try lia.
    destruct Hend as [(_ & Ho & _)|[_ ->]]; [|exact Hlen].
    destruct (Nat.eq_dec e cs) as [->|]; [|lia].
    exfalso. apply (Hem (x :: m) eq_refl); [discriminate|exact Ho]. }
  unfold slice. rewrite Hskip.
  replace (e - cs) with (S (e - cs - 1)) by lia. cbn [firstn].
  destruct (trim_keeps_head c (firstn (e - cs - 1) rest) Hc) as [r ->].
  now exists r.
Qed.

Lemma extractSection_keeps_first_character_witness :
  exists r,
    extractSection (JStr sample_analysis) KEY_IMPORTANT_POINTS
      (Some SUSPICIOUS_ELEMENTS) = Normal (58%N :: r).
Proof.
  refine (extractSection_keeps_first_character sample_analysis
            KEY_IMPORTANT_POINTS (Some SUSPICIOUS_ELEMENTS) 0 58%N
            (skipn 21 sample_analysis) _ _ _ _).
  - exact (indexOf_Some sample_analysis KEY_IMPORTANT_POINTS 0 0 eq_refl).
  - reflexivity.
  - reflexivity.
  - intros m Hm _ Ho. injection Hm as <-.
    apply occurs_at_iff in Ho as [_ Ho]. discriminate Ho.
Defined.

(** X3.  A section never holds its end marker: when the start marker is
    there and the end marker is a non-empty string, the end marker occurs
    nowhere in the extracted section. *)
Theorem extractSection_excludes_end_marker (t startMarker : jstring)
    (c : code_unit) (m r : jstring) (i : nat) :
  first_from startMarker t 0 i ->
  extractSection (JStr t) startMarker (Some (c :: m)) = Normal r ->
  forall k, ~ occurs_at (c :: m) r k.
Proof.
  intros Hf Hr k (p & q & Hrq & Hk).
  destruct (extractSection_found t startMarker (Some (c :: m)) i Hf)
    as (e & Hend & Hle & Hr').
  rewrite Hr in Hr'. injection Hr' as ->.
  set (cs := i + length startMarker) in *.
  destruct (trim_spec (slice t cs e)) as (a & b & Hs & _).
  rewrite Hrq in Hs.
  assert (Hocc : occurs_at (c :: m) t (cs + length a + length p)).
  { exists (firstn cs t ++ a ++ p), (q ++ b ++ skipn e t). split.
    - rewrite (text_around_slice t cs e) at 1 by lia.
      rewrite Hs, <- !app_assoc. reflexivity.
    - rewrite !length_app, length_firstn. lia. }
  assert (Hin : cs + length a + length p < e).
  { assert (H : length (slice t cs e) = e - cs) by (apply length_slice; lia).
    rewrite Hs, !length_app in H. simpl in H. lia. }
  cbn [section_end] in Hend.
  destruct Hend as [(_ & _ & Hbefore)|[Habs _]].
  - apply (Hbefore (cs + length a + length p)); [lia|exact Hocc].
  - apply (Habs (cs + length a + length p)); [lia|exact Hocc].
Qed.

Lemma extractSection_excludes_end_marker_witness :
  first_from KEY_IMPORTANT_POINTS four_sections 0 6 /\
  extractSection (JStr four_sections) KEY_IMPORTANT_POINTS
    (Some SUSPICIOUS_ELEMENTS) = Normal (lit "a") /\
  forall k, ~ occurs_at SUSPICIOUS_ELEMENTS (lit "a") k.
Proof.
  assert (H : first_from KEY_IMPORTANT_POINTS four_sections 0 6)
    by exact (indexOf_Some four_sections KEY_IMPORTANT_POINTS 0 6 eq_refl).
  split; [exact H|]. split; [reflexivity|].
  exact (extractSection_excludes_end_marker four_sections KEY_IMPORTANT_POINTS
           83%N (lit "USPICIOUS ELEMENTS") (lit "a") 6 H eq_refl).
Defined.

Section Lengths.

Lemma length_item (b : code_unit) (l : jstring) :
  length l <= length (item b l).
Proof.
  unfold item. destruct (starts_with [b; SP] l); [|lia].
  rewrite !length_app, length_skipn. simpl. lia.
Qed.

Lemma length_replace_bullet (b : code_unit) (s : jstring) :
  is_line_terminator b = false ->
  length s <= length (replace (bullet_line b) s).
Proof.
  intros Hb. induction s as [l Hl|l t rest Hl Ht IH] using lines_ind.
  - rewrite replace_bullet_last by assumption. apply length_item.
  - rewrite replace_bullet_line by assumption.
    pose proof (length_item b l). rewrite !length_app. simpl. lia.
Qed.

Lemma length_bulletize (s : jstring) : length s <= length (bulletize s).
Proof.
  unfold bulletize.
  pose proof (length_replace_bullet DASH s eq_refl).
  pose proof (length_replace_bullet STAR (replace (bullet_line DASH) s) eq_refl).
  lia.
Qed.

Lemma length_list_span (t : jstring) : length t <= length (replace list_span t).
Proof.
  destruct (replace_list_span_once t)
    as [[-> _]|(pre & body & post & Ht & -> & _)]; [lia|].
  rewrite Ht, !length_app. lia.
Qed.

Lemma length_flat_map_br (s : jstring) : length s <= length (flat_map br s).
Proof.
  induction s as [|c s IH]; [reflexivity|].
  cbn [flat_map]. rewrite length_app. unfold br at 1.
  destruct (c =? LF)%N; simpl in *; lia.
Qed.

(** [formatText] gives a text that is not empty. *)
Lemma formatText_not_empty (s : jstring) :
  exists h, formatText (JStr s) = Normal h /\ h <> [].
Proof.
  destruct s as [|c s]; [exists sentinel; split; [reflexivity|discriminate]|].
  rewrite formatText_nonempty. eexists. split; [reflexivity|].
  intros E. apply (f_equal (@length _)) in E.
  pose proof (length_flat_map_br (replace list_span (bulletize (c :: s)))).
  pose proof (length_list_span (bulletize (c :: s))).
  pose proof (length_bulletize (c :: s)).
  simpl in *. lia.
Qed.

Lemma extractSection_string (t sm : jstring) (em : option jstring) :
  exists r, extractSection (JStr t) sm em = Normal r.
Proof.
  unfold extractSection. cbn [as_receiver bind].
  destruct (indexOf t sm 0); eexists; reflexivity.
Qed.

End Lengths.

(** X4.  For a response whose member [analysis] is a string the template is
    filled without an exception, whatever the text is, and none of the four
    sections is empty: a section that is missing or empty shows the sentinel.
    The footer holds the time and the member [fileName]. *)
Theorem displayResults_four_sections (now : jstring) (o : JsonObject)
    (t : jstring) :
  string_member "analysis" o = JStr t ->
  exists r,
    displayResults now o = Normal r /\
    key_points r <> [] /\ suspicious r <> [] /\
    risk r <> [] /\ recommendations r <> [] /\
    completed r = now /\ document r = string_member "fileName" o.
Proof.
  intros Ha. unfold displayResults. rewrite Ha.
  destruct (extractSection_string t KEY_IMPORTANT_POINTS (Some SUSPICIOUS_ELEMENTS))
    as [s1 ->].
  destruct (extractSection_string t SUSPICIOUS_ELEMENTS (Some RISK_ASSESSMENT))
    as [s2 ->].
  destruct (extractSection_string t RISK_ASSESSMENT (Some RECOMMENDATIONS))
    as [s3 ->].
  destruct (extractSection_string t RECOMMENDATIONS None) as [s4 ->].
  cbn [bind].
  destruct (formatText_not_empty s1) as (h1 & -> & N1).
  destruct (formatText_not_empty s2) as (h2 & -> & N2).
  destruct (formatText_not_empty s3) as (h3 & -> & N3).
  destruct (formatText_not_empty s4) as (h4 & -> & N4).
  cbn [bind]. eexists. split; [reflexivity|]. cbn. repeat split; assumption.
Qed.

Lemma displayResults_four_sections_witness :
  exists r,
    displayResults (lit "1/1/2026")
      [("analysis", JsonString (lit "KEY IMPORTANT POINTSSUSPICIOUS ELEMENTS"))]%string
    = Normal r /\
    key_points r <> [] /\ suspicious r <> [] /\
    risk r <> [] /\ recommendations r <> [] /\
    completed r = lit "1/1/2026" /\ document r = JUndefined.
Proof.
  exact (displayResults_four_sections (lit "1/1/2026")
           [("analysis", JsonString (lit "KEY IMPORTANT POINTSSUSPICIOUS ELEMENTS"))]%string
           (lit "KEY IMPORTANT POINTSSUSPICIOUS ELEMENTS") eq_refl).
Defined.

(** ** The page *)

(** X5.  When a request ends, whatever its result, the click handler leaves
    the loading element hidden, the button enabled and the results element
    shown, and one request fewer under way.  The results element holds the
    report exactly when the response was [ok], its body parsed and the
    template could be filled; in every other case it holds the error box
    with the one fixed message, also when the response carried a message of
    its own. *)
Theorem click_finish_report_or_error (now : jstring)
    (result : Page.FetchResult) (p : Page.State) :
  let p' := Page.click_finish now result p in
  Page.loading_display p' = Page.DisplayNone /\
  Page.analyzeBtn_disabled p' = false /\
  Page.results_display p' = Page.DisplayBlock /\
  Page.pending p' = Nat.pred (Page.pending p) /\
  Page.selectedFile p' = Page.selectedFile p /\
  Page.placeholder_display p' = Page.placeholder_display p /\
  ((exists o r,
      result = Page.HttpResponse true (Some o) /\
      displayResults now o = Normal r /\
      Page.results_innerHTML p' = Page.Report r)
   \/
   (Page.results_innerHTML p' = Page.ErrorBox Page.failed_message /\
    forall o r,
      result = Page.HttpResponse true (Some o) ->
      displayResults now o <> Normal r)).
Proof.
  unfold Page.click_finish.
  destruct result as [|[|] [o|]]; cbn; try (repeat split; right; split;
    [reflexivity|intros o' r' H; discriminate H]).
  unfold Page.displayResults_page.
  destruct (displayResults now o) as [r|e] eqn:E; cbn.
  - repeat split. left. exists o, r. repeat split. exact E.
  - repeat split. right. split; [reflexivity|].
    intros o' r' H. injection H as <-. congruence.
Qed.

Lemma click_finish_shape (now : jstring) (result : Page.FetchResult)
    (p : Page.State) :
  let p' := Page.click_finish now result p in
  Page.loading_display p' = Page.DisplayNone /\
  Page.analyzeBtn_disabled p' = false /\
  Page.results_display p' = Page.DisplayBlock /\
  Page.pending p' = Nat.pred (Page.pending p) /\
  Page.selectedFile p' = Page.selectedFile p /\
  Page.placeholder_display p' = Page.placeholder_display p /\
  ((exists r, Page.results_innerHTML p' = Page.Report r) \/
   Page.results_innerHTML p' = Page.ErrorBox Page.failed_message).
Proof.
  unfold Page.click_finish.
  destruct result as [|[|] [o|]]; cbn; try (repeat split; now right).
  unfold Page.displayResults_page.
  destruct (displayResults now o) as [r|e]; cbn; repeat split;
    [left; now exists r|now right].
Qed.

Lemma initial_page_consistent (p : Page.State) :
  Page.selectedFile p = None ->
  Page.analyzeBtn_disabled p = true ->
  Page.pending p = 0 ->
  Page.loading_display p = Page.DisplayNone ->
  Page.results_display p = Page.DisplayNone ->
  Page.consistent p.
Proof.
  intros H1 H2 H3 H4 H5. unfold Page.consistent.
  rewrite H2, H3, H5. repeat split; try congruence; try lia.
Qed.

Lemma step_consistent (scaled : N -> jstring) (ev : Page.Event)
    (p p' : Page.State) :
  Page.consistent p -> Page.step scaled ev p = Some p' -> Page.consistent p'.
Proof.
  intros (Hbtn & Hpend & Hplace & Hload & Hres) Hstep.
  destruct ev as [| |files|files| |now result]; cbn [Page.step] in Hstep.
  - injection Hstep as <-. unfold Page.consistent. cbn. auto.
  - injection Hstep as <-. unfold Page.consistent. cbn. auto.
  - injection Hstep as <-. unfold Page.on_drop.
    destruct files as [|f fs]; unfold Page.consistent; cbn; [auto|].
    repeat split; try congruence; try assumption; now apply Hres.
  - injection Hstep as <-. unfold Page.on_change.
    destruct files as [|f fs]; unfold Page.consistent; cbn; [auto|].
    repeat split; try congruence; try assumption; now apply Hres.
  - destruct (Page.analyzeBtn_disabled p) eqn:Eb; [discriminate|].
    unfold Page.click_start in Hstep.
    destruct (Page.selectedFile p) as [f|] eqn:Ef.
    + injection Hstep as <-. unfold Page.consistent. cbn. rewrite Ef.
      repeat split; try congruence; try lia.
    + exfalso. now apply Hbtn.
  - destruct (Page.pending p) as [|n] eqn:En; [discriminate|].
    injection Hstep as <-.
    assert (Hf : Page.selectedFile p <> None) by (apply Hpend; lia).
    assert (Hp : Page.placeholder_display p = Page.DisplayNone)
      by (apply Hplace; lia).
    destruct (click_finish_shape now result p)
      as (Hl & Hb & Hr & Hn & Hs & Hpl & Hc).
    unfold Page.consistent. rewrite Hl, Hs, Hpl, Hp.
    repeat split; intros; try assumption; try reflexivity.
    destruct Hc as [(r & ->)| ->]; discriminate.
Qed.

(** X6.  From the page as it is loaded, with no file selected, the button
    disabled and nothing under way, every sequence of events keeps the page
    consistent: the button is enabled only when a file is selected, a request
    is under way only for a selected file and with the placeholder hidden,
    the loading element is hidden when no request is under way, and the
    results element is shown only with the placeholder hidden and with a
    report or an error box in it. *)
Theorem page_stays_consistent (scaled : N -> jstring)
    (evs : list Page.Event) (p p' : Page.State) :
  Page.consistent p -> Page.run scaled evs p = Some p' -> Page.consistent p'.
Proof.
  revert p; induction evs as [|ev evs IH]; intros p Hp Hrun; cbn in Hrun.
  - now injection Hrun as <-.
  - destruct (Page.step scaled ev p) as [p1|] eqn:E; [|discriminate].
    apply (IH p1); [|exact Hrun]. eapply step_consistent; eassumption.
Qed.

Lemma page_stays_consistent_witness :
  exists p',
    Page.run Page.two_megabytes Page.sample_events Page.loaded = Some p' /\
    Page.results_innerHTML p' = Page.ErrorBox Page.failed_message /\
    Page.consistent p'.
Proof.
  eexists. split; [reflexivity|]. split; [reflexivity|].
  refine (page_stays_consistent Page.two_megabytes Page.sample_events
            Page.loaded _ _ eq_refl).
  apply initial_page_consistent; reflexivity.
Defined.

(** X7.  Selecting a file while a request is under way enables the button
    again, by the file input and by a drop alike, so that a click then
    starts another request beside the first: the page does not keep to one
    request at a time. *)
Theorem selection_reenables_button (scaled : N -> jstring) (p : Page.State)
    (f : Page.BrowserFile) (fs : list Page.BrowserFile) :
  0 < Page.pending p ->
  (exists p1 p2,
     Page.step scaled (Page.Change (f :: fs)) p = Some p1 /\
     Page.analyzeBtn_disabled p1 = false /\
     Page.step scaled Page.Click p1 = Some p2 /\
     Page.pending p2 = S (Page.pending p) /\ 2 <= Page.pending p2) /\
  (exists p1 p2,
     Page.step scaled (Page.Drop (f :: fs)) p = Some p1 /\
     Page.analyzeBtn_disabled p1 = false /\
     Page.step scaled Page.Click p1 = Some p2 /\
     Page.pending p2 = S (Page.pending p) /\ 2 <= Page.pending p2).
Proof.
  intros Hp.
  split; do 2 eexists;
    (split; [reflexivity|]); (split; [reflexivity|]);
    (split; [reflexivity|]); (split; [reflexivity|]); cbn; lia.
Qed.

Lemma selection_reenables_button_witness :
  exists p0,
    Page.run Page.two_megabytes [Page.Change [Page.contract_file]; Page.Click]
      Page.loaded = Some p0 /\
    Page.analyzeBtn_disabled p0 = true /\
    exists p1 p2,
      Page.step Page.two_megabytes (Page.Change [Page.scan_file]) p0 = Some p1 /\
      Page.analyzeBtn_disabled p1 = false /\
      Page.step Page.two_megabytes Page.Click p1 = Some p2 /\
      Page.pending p2 = S (Page.pending p0) /\ 2 <= Page.pending p2.
Proof.
  eexists. split; [reflexivity|]. split; [reflexivity|].
  refine (proj1 (selection_reenables_button Page.two_megabytes _
                   Page.scan_file [] _)).
  cbn. lia.
Defined.

(** ** Further properties of the server *)

Section MoreServer.

Lemma jeqb_eq (a b : jstring) : jeqb a b = true -> a = b.
Proof.
  revert b; induction a as [|x a IH]; intros [|y b] H; try discriminate.
  - reflexivity.
  - cbn [jeqb] in H. apply andb_true_iff in H as [Hxy Hab].
    apply N.eqb_eq in Hxy. subst y. f_equal. now apply IH.
Qed.

End MoreServer.

(** The runs of the handler, one for each answer of the world. *)
Ltac handler_runs :=
  unfold post_analyze, analyze_handler, analyzeLegalDocument, generate,
    try_catch, ebind, lift, emit, throw, ret, res_json, res_status_json,
    fileExtension_of in *;
  repeat match goal with
         | |- context [truthy ?k] =>
           lazymatch k with
           | GEMINI_API_KEY _ => destruct (truthy k) eqn:?
           end
         | |- context [readFileSync ?w ?x] => destruct (readFileSync w x) eqn:?
         | |- context [jeqb ?a ?b] => destruct (jeqb a b) eqn:?
         | |- context [existsb ?f ?l] => destruct (existsb f l) eqn:?
         | |- context [generateContent ?w ?a ?b ?c] =>
           destruct (generateContent w a b c) eqn:?
         end;
  cbn [negb fst snd app].

Lemma analyze_handler_responds (w : World) (file : option File) :
  fst (analyze_handler w file) = Normal tt /\
  exists status body,
    responses (snd (analyze_handler w file)) = [(status, body)] /\
    (status = 200%N \/ status = 400%N \/ status = 500%N) /\
    length (model_calls (snd (analyze_handler w file))) <= 1 /\
    (status = 200%N -> length (model_calls (snd (analyze_handler w file))) = 1).
Proof.
  destruct file as [f|]; handler_runs;
    (split; [reflexivity|]); do 2 eexists;
    (split; [reflexivity|]); cbn;
    (split; [auto|]); (split; [lia|]); intros H; (reflexivity || discriminate H).
Qed.


(** X9.  The uploaded file is removed exactly once whenever the analysis
    was started, whether it succeeded or failed; it is not removed when the
    API key is missing, and nothing is removed when there is no file. *)
Theorem analyze_handler_cleanup (w : World) (file : option File) :
  unlinks (snd (analyze_handler w file))
  = match file with
    | Some f => if truthy (GEMINI_API_KEY w) then [path f] else []
    | None => []
    end.
Proof.
  destruct file as [f|]; handler_runs; reflexivity.
Qed.

(** X10.  A call of the generative model is made only for a file that is
    there, with the API key configured and after the file was read; it
    carries the bytes of the file in base 64 and the MIME type
    [application/pdf] for the extension [.pdf], [image/jpeg] for [.jpg] and
    [.jpeg], and [image/png] for [.png]. *)
Theorem model_call_content (w : World) (file : option File)
    (mimeType data : jstring) :
  In (mimeType, data) (model_calls (snd (analyze_handler w file))) ->
  exists f buffer,
    file = Some f /\
    truthy (GEMINI_API_KEY w) = true /\
    readFileSync w (path f) = Normal buffer /\
    data = base64 w buffer /\
    let ext := fileExtension_of w (originalname f) in
    (ext = lit ".pdf" /\ mimeType = lit "application/pdf") \/
    ((ext = lit ".jpg" \/ ext = lit ".jpeg") /\ mimeType = lit "image/jpeg") \/
    (ext = lit ".png" /\ mimeType = lit "image/png").
Proof.
  destruct file as [f|]; [|intros []].
  set (ext := fileExtension_of w (originalname f)).
  assert (Himg : existsb (jeqb ext) [lit ".jpg"; lit ".jpeg"; lit ".png"] = true ->
                 ((ext = lit ".jpg" \/ ext = lit ".jpeg") /\
                  getImageMimeType ext = lit "image/jpeg") \/
                 (ext = lit ".png" /\ getImageMimeType ext = lit "image/png")).
  { cbn [existsb]. unfold getImageMimeType.
    destruct (jeqb ext (lit ".jpg")) eqn:E1; [apply jeqb_eq in E1; auto|].
    destruct (jeqb ext (lit ".jpeg")) eqn:E2; [apply jeqb_eq in E2; auto|].
    destruct (jeqb ext (lit ".png")) eqn:E3; [apply jeqb_eq in E3; auto|].
    discriminate. }
  unfold ext in *. clear ext. revert Himg.
  handler_runs; intros Himg Hin; cbn in Hin;
    repeat match goal with H : _ \/ _ |- _ => destruct H end;
    try contradiction;
    match goal with H : (_, _) = (_, _) |- _ => injection H as <- <- end;
    exists f; eexists; repeat (split; [eassumption || reflexivity|]);
    cbv zeta;
    try (left; split; [now apply jeqb_eq|reflexivity]);
    right; destruct (Himg eq_refl) as [[He Hm]|[He Hm]]; rewrite Hm; auto.
Qed.

Lemma model_call_content_witness :
  exists f buffer,
    Some contract_pdf = Some f /\
    truthy (GEMINI_API_KEY (sample_world (JStr (lit "key")))) = true /\
    readFileSync (sample_world (JStr (lit "key"))) (path f) = Normal buffer /\
    lit "JVBERg==" = base64 (sample_world (JStr (lit "key"))) buffer /\
    let ext := fileExtension_of (sample_world (JStr (lit "key"))) (originalname f) in
    (ext = lit ".pdf" /\ lit "application/pdf" = lit "application/pdf") \/
    ((ext = lit ".jpg" \/ ext = lit ".jpeg") /\
     lit "application/pdf" = lit "image/jpeg") \/
    (ext = lit ".png" /\ lit "application/pdf" = lit "image/png").
Proof.
  refine (model_call_content (sample_world (JStr (lit "key")))
            (Some contract_pdf) (lit "application/pdf") (lit "JVBERg==") _).
  left. reflexivity.
Defined.

(** X11.  The type filter lets through what the analysis does not take:
    for a stored file within the limit whose extension passed the filter
    but is none of [.pdf], [.jpg], [.jpeg] and [.png], the server reads the
    file, does not call the model, removes the file and answers with the
    status 500 and the message of the unsupported type. *)
Theorem accepted_but_unsupported (w : World) (p : Part)
    (stored : jstring) (buffer : list N) :
  jeqb (part_fieldname p) (lit "document") = true ->
  fileFilter w p = Normal true ->
  store w p = Normal stored ->
  (part_size p <= fileSize)%N ->
  truthy (GEMINI_API_KEY w) = true ->
  readFileSync w stored = Normal buffer ->
  ~ In (fileExtension_of w (part_originalname p))
       [lit ".pdf"; lit ".jpg"; lit ".jpeg"; lit ".png"] ->
  responses (snd (post_analyze w (Some p)))
  = [(500%N, failure (lit "Analysis failed: Unsupported file type"))] /\
  model_calls (snd (post_analyze w (Some p))) = [] /\
  unlinks (snd (post_analyze w (Some p))) = [stored].
Proof.
  intros Hfield Hfilter Hstore Hsize Hkey Hread Hext.
  assert (Hlimit : (fileSize <? part_size p)%N = false)
    by (apply N.ltb_ge; exact Hsize).
  unfold post_analyze, upload_single.
  rewrite Hfield, Hfilter. cbn [negb bind]. rewrite Hstore. cbn [bind].
  rewrite Hlimit.
  unfold analyze_handler, analyzeLegalDocument. cbn [path originalname].
  rewrite Hkey, Hread. cbn [negb].
  unfold fileExtension_of in Hext.
  destruct (jeqb (toLowerCase w (extname w (part_originalname p))) (lit ".pdf"))
    eqn:E0; [apply jeqb_eq in E0; exfalso; apply Hext; rewrite E0; cbn; auto|].
  destruct (existsb _ _) eqn:E1.
  - exfalso. apply existsb_exists in E1 as (x & Hx & Hj).
    apply jeqb_eq in Hj. apply Hext. rewrite Hj. now right.
  - cbn. repeat split.
Qed.

(** X12.  For a PDF in the right field that passes the filter, is stored
    and is within the limit, with the API key configured, the file readable
    and an answer of the model, the server reads the file, calls the model
    once with the MIME type [application/pdf] and the bytes in base 64,
    removes the file and only then answers, with the status 200, the text of
    the model and the original name of the file. *)
Theorem successful_pdf_analysis (w : World) (p : Part)
    (stored : jstring) (buffer : list N) (analysis : jstring) :
  jeqb (part_fieldname p) (lit "document") = true ->
  fileFilter w p = Normal true ->
  store w p = Normal stored ->
  (part_size p <= fileSize)%N ->
  truthy (GEMINI_API_KEY w) = true ->
  readFileSync w stored = Normal buffer ->
  fileExtension_of w (part_originalname p) = lit ".pdf" ->
  generateContent w prompt (lit "application/pdf") (base64 w buffer)
  = Normal analysis ->
  post_analyze w (Some p)
  = (Normal tt,
     [ Console (lit "Analyzing file: " ++ part_originalname p);
       Generate (lit "application/pdf") (base64 w buffer);
       Unlink stored;
       Send 200 [ ("analysis", JsonString analysis);
                  ("fileName", JsonString (part_originalname p));
                  ("fileType", JsonString (lit ".pdf"));
                  ("timestamp", JsonString (toISOString w));
                  ("success", JsonBool true) ]%string ]).
Proof.
  intros Hfield Hfilter Hstore Hsize Hkey Hread Hext Hgen.
  assert (Hlimit : (fileSize <? part_size p)%N = false)
    by (apply N.ltb_ge; exact Hsize).
  unfold post_analyze, upload_single.
  rewrite Hfield, Hfilter. cbn [negb bind]. rewrite Hstore. cbn [bind].
  rewrite Hlimit.
  unfold analyze_handler, analyzeLegalDocument, generate.
  cbn [path originalname].
  unfold fileExtension_of in Hext.
  rewrite Hkey, Hread, Hext.
  replace (jeqb (lit ".pdf") (lit ".pdf")) with true by reflexivity.
  unfold try_catch, ebind, lift, emit. rewrite Hgen. reflexivity.
Qed.

(** X13.  The health route and the analyse route agree on the API key: the
    health response says [geminiConfigured] exactly when a request with a
    file is not turned down for the missing key. *)
Theorem health_agrees_with_analyze (w : World) :
  exists configured,
    health_handler w
    = (Normal tt,
       [Send 200 [ ("status", JsonString (lit "healthy"));
                   ("timestamp", JsonString (toISOString w));
                   ("geminiConfigured", JsonBool configured) ]%string]) /\
    (configured = false <->
     forall f,
       responses (snd (analyze_handler w (Some f)))
       = [(500%N, failure (lit "Gemini API key not configured"))]) /\
    (configured = true <->
     forall f,
       responses (snd (analyze_handler w (Some f)))
       <> [(500%N, failure (lit "Gemini API key not configured"))]).
Proof.
  exists (truthy (GEMINI_API_KEY w)). split; [reflexivity|].
  assert (Hyes : truthy (GEMINI_API_KEY w) = true ->
                 forall f, responses (snd (analyze_handler w (Some f)))
                           <> [(500%N, failure (lit "Gemini API key not configured"))]).
  { intros Hk f. handler_runs; try discriminate; cbn; intros H; discriminate H. }
  assert (Hno : truthy (GEMINI_API_KEY w) = false ->
                forall f, responses (snd (analyze_handler w (Some f)))
                          = [(500%N, failure (lit "Gemini API key not configured"))]).
  { intros Hk f. unfold analyze_handler. rewrite Hk. reflexivity. }
  pose (f0 := mkFile [] [] [] 0 []).
  split; split.
  - exact Hno.
  - intros H. destruct (truthy (GEMINI_API_KEY w)) eqn:Hk; [|reflexivity].
    exfalso. exact (Hyes eq_refl f0 (H f0)).
  - exact Hyes.
  - intros H. destruct (truthy (GEMINI_API_KEY w)) eqn:Hk; [reflexivity|].
    exfalso. exact (H f0 (Hno eq_refl f0)).
Qed.

(** X14.  With a file and the API key configured, every answer of the
    handler that is not the success is the status 500 with a message that
    starts with [Analysis failed: ]: the message of the error that was
    caught is passed on to the client, and the handler never falls back to
    its own [Internal server error]. *)
Theorem analysis_failure_message (w : World) (f : File) (status : N)
    (body : JsonObject) :
  truthy (GEMINI_API_KEY w) = true ->
  responses (snd (analyze_handler w (Some f))) = [(status, body)] ->
  status <> 200%N ->
  status = 500%N /\
  exists cause, body = failure (lit "Analysis failed: " ++ cause).
Proof.
  intros Hkey. revert Hkey. handler_runs; intros Hkey Hresp Hstatus;
    try discriminate Hkey; cbn in Hresp; injection Hresp as <- <-;
    try congruence; (split; [reflexivity|]); eexists; reflexivity.
Qed.

Lemma accepted_but_unsupported_witness :
  responses (snd (post_analyze (sample_world (JStr (lit "key"))) (Some odd_pdf)))
  = [(500%N, failure (lit "Analysis failed: Unsupported file type"))] /\
  model_calls (snd (post_analyze (sample_world (JStr (lit "key"))) (Some odd_pdf)))
  = [] /\
  unlinks (snd (post_analyze (sample_world (JStr (lit "key"))) (Some odd_pdf)))
  = [lit "uploads/document-1767225600000-42.pdfx"].
Proof.
  refine (accepted_but_unsupported (sample_world (JStr (lit "key"))) odd_pdf
            (lit "uploads/document-1767225600000-42.pdfx") [37; 80; 68; 70]%N
            _ _ _ _ _ _ _); try reflexivity.
  - apply N.leb_le. reflexivity.
  - intros H. cbn in H.
    repeat (destruct H as [H|H]; [discriminate H|]). exact H.
Defined.

Lemma successful_pdf_analysis_witness :
  post_analyze (sample_world (JStr (lit "key"))) (Some small_pdf)
  = (Normal tt,
     [ Console (lit "Analyzing file: contract.pdf");
       Generate (lit "application/pdf") (lit "JVBERg==");
       Unlink (lit "uploads/document-1767225600000-42.pdf");
       Send 200 [ ("analysis", JsonString sample_analysis);
                  ("fileName", JsonString (lit "contract.pdf"));
                  ("fileType", JsonString (lit ".pdf"));
                  ("timestamp", JsonString (lit "2026-01-01T00:00:00.000Z"));
                  ("success", JsonBool true) ]%string ]).
Proof.
  refine (successful_pdf_analysis (sample_world (JStr (lit "key"))) small_pdf
            (lit "uploads/document-1767225600000-42.pdf") [37; 80; 68; 70]%N
            sample_analysis _ _ _ _ _ _ _ _); try reflexivity.
  apply N.leb_le. reflexivity.
Defined.

Lemma analysis_failure_message_witness :
  500%N = 500%N /\
  exists cause,
    failure (lit "Analysis failed: Unsupported file type")
    = failure (lit "Analysis failed: " ++ cause).
Proof.
  refine (analysis_failure_message (sample_world (JStr (lit "key")))
            odd_pdf_file 500
            (failure (lit "Analysis failed: Unsupported file type")) _ _ _).
  - reflexivity.
  - reflexivity.
  - discriminate.
Defined.


Section RoundTrip.

Lemma upload_single_inv (w : World) (field : jstring) (rq : option Part)
    (f : File) :
  upload_single w field rq = Normal (Some f) ->
  exists p stored,
    rq = Some p /\
    store w p = Normal stored /\
    f = mkFile (part_fieldname p) (part_originalname p) (part_mimetype p)
               (part_size p) stored /\
    part_fieldname p = field /\
    fileFilter w p = Normal true /\
    (part_size p <= fileSize)%N.
Proof.
  unfold upload_single. destruct rq as [p|]; [|discriminate].
  destruct (jeqb (part_fieldname p) field) eqn:Ef; cbn [negb]; [|discriminate].
  destruct (fileFilter_cases w p) as [Hf|Hf]; rewrite Hf; cbn [bind];
    [|discriminate].
  destruct (store w p) as [stored|e] eqn:Es; cbn [bind]; [|discriminate].
  destruct (fileSize <? part_size p)%N eqn:El; [discriminate|].
  intros H. injection H as <-. exists p, stored.
  repeat split; try assumption; [now apply jeqb_eq|now apply N.ltb_ge].
Qed.

Lemma analyze_handler_success (w : World) (file : option File)
    (body : JsonObject) :
  responses (snd (analyze_handler w file)) = [(200%N, body)] ->
  exists f analysis,
    file = Some f /\
    body = [ ("analysis", JsonString analysis);
             ("fileName", JsonString (originalname f));
             ("fileType", JsonString (fileExtension_of w (originalname f)));
             ("timestamp", JsonString (toISOString w));
             ("success", JsonBool true) ]%string.
Proof.
  destruct file as [f|]; handler_runs; cbn; intros H;
    try discriminate H; injection H as <-; do 2 eexists; split; reflexivity.
Qed.

Lemma displayResults_filled (now : jstring) (o : JsonObject) (t : jstring) :
  string_member "analysis" o = JStr t ->
  exists r,
    displayResults now o = Normal r /\
    document r = string_member "fileName" o.
Proof.
  intros Ha. unfold displayResults. rewrite Ha.
  destruct (extractSection_string t KEY_IMPORTANT_POINTS (Some SUSPICIOUS_ELEMENTS))
    as [s1 ->].
  destruct (extractSection_string t SUSPICIOUS_ELEMENTS (Some RISK_ASSESSMENT))
    as [s2 ->].
  destruct (extractSection_string t RISK_ASSESSMENT (Some RECOMMENDATIONS))
    as [s3 ->].
  destruct (extractSection_string t RECOMMENDATIONS None) as [s4 ->].
  cbn [bind].
  destruct (formatText_not_empty s1) as (h1 & -> & _).
  destruct (formatText_not_empty s2) as (h2 & -> & _).
  destruct (formatText_not_empty s3) as (h3 & -> & _).
  destruct (formatText_not_empty s4) as (h4 & -> & _).
  cbn [bind]. eexists. split; reflexivity.
Qed.

End RoundTrip.

(** X16.  From the request to the page: when the server answers with the
    status 200, the page shows the report, filled from the body that was
    sent, with the original name of the uploaded file in the footer; for
    every other answer the page shows the error box with its one fixed
    message, and the message of the server is not shown. *)
Theorem round_trip (w : World) (rq : option Part) (now : jstring)
    (pg : Page.State) :
  let pg' :=
    Page.click_finish now (response_of (snd (post_analyze w rq))) pg in
  exists status body,
    responses (snd (post_analyze w rq)) = [(status, body)] /\
    (status = 200%N ->
     exists p r,
       rq = Some p /\
       displayResults now body = Normal r /\
       document r = JStr (part_originalname p) /\
       Page.results_innerHTML pg' = Page.Report r) /\
    (status <> 200%N ->
     Page.results_innerHTML pg' = Page.ErrorBox Page.failed_message).
Proof.
  cbv zeta. unfold post_analyze.
  destruct (upload_single w (lit "document") rq) as [file|e] eqn:Eu.
  - destruct (analyze_handler_responds w file)
      as (_ & status & body & Hr & Hs & _).
    exists status, body. split; [exact Hr|]. unfold response_of. rewrite Hr.
    split.
    + intros ->. destruct (analyze_handler_success w file body Hr)
        as (f & a & -> & Hbody).
      destruct (upload_single_inv _ _ _ _ Eu) as (p & stored & -> & _ & Hf & _).
      destruct (displayResults_filled now body a) as (r & Hd & Hdoc);
        [rewrite Hbody; reflexivity|].
      exists p, r. split; [reflexivity|]. split; [exact Hd|]. split.
      * rewrite Hdoc, Hbody, Hf. reflexivity.
      * unfold Page.click_finish, Page.displayResults_page. cbn.
        rewrite Hd. reflexivity.
    + intros Hne. destruct Hs as [->|[->| ->]]; [congruence| |]; reflexivity.
  - destruct (error_middleware_sends_once e) as (status & message & -> & Hs).
    exists status, (failure message). split; [reflexivity|].
    unfold response_of. cbn [snd responses flat_map app].
    split; [intros ->; destruct Hs; discriminate|].
    intros _. destruct Hs as [-> | ->]; reflexivity.
Qed.


